(** * Amazon order export: parser, store query, grouper and XML report builder

    A shallow embedding of [main.py]: the tab-delimited record parser
    ([parse_txt_to_objects]), the fixed store query ([query_mongodb]), the
    two grouping loops of [run] and the report builder
    ([generate_amazon_xml]), with the properties the specification states
    about them. *)

From Stdlib Require Import ZArith NArith String Ascii List DecimalString DecimalNat
  DecimalFacts.
From stdpp Require Import base option list gmap strings.

#[local] Set Warnings "-clear-no-such-hyp".
Local Open Scope string_scope.
Local Open Scope list_scope.

(** ** Python values and exceptions *)

(** A naive [datetime.datetime], as [datetime(y, m, d, H, M, S)] builds it
    and as pymongo (tz_aware off) hands stored dates back. *)
Record datetime := mk_datetime {
  year : N; month : N; day : N;
  hour : N; minute : N; second : N; microsecond : N
}.

#[global] Instance datetime_eq_dec : EqDecision datetime.
Proof. solve_decision. Defined.

(** The values a record can hold under a string key: cells of the input
    table ([str]), the filler of a short row ([None]), the parsed
    [order_date], the store's [_id], and Python booleans (the default
    [False] of the flag lookups). *)
Inductive value :=
  | VStr (s : string)
  | VNone
  | VBool (b : bool)
  | VDate (d : datetime)
  | VOid (hex : string).

#[global] Instance value_eq_dec : EqDecision value.
Proof. solve_decision. Defined.

Inductive exn :=
  | KeyError (k : string)
  | IndexError
  | TypeError
  | ValueError
  | ExpatError.

Inductive result (A : Type) :=
  | Ok (a : A)
  | Err (e : exn).
Arguments Ok {A} a.
Arguments Err {A} e.

#[global] Instance result_ret : MRet result := λ A a, Ok a.
#[global] Instance result_bind : MBind result :=
  λ A B f m, match m with Ok a => f a | Err e => Err e end.
#[global] Instance result_fmap : FMap result :=
  λ A B f m, match m with Ok a => Ok (f a) | Err e => Err e end.

(** [for x in l: s = body(s, x)], stopping at the first exception. *)
Fixpoint for_each {A S : Type} (body : S → A → result S) (l : list A) (s : S)
  : result S :=
  match l with
  | [] => Ok s
  | x :: l' => s' ← body s x; for_each body l' s'
  end.

(** [[f(x) for x in l]], stopping at the first exception. *)
Fixpoint map_each {A B : Type} (f : A → result B) (l : list A) : result (list B) :=
  match l with
  | [] => Ok []
  | x :: l' => y ← f x; ys ← map_each f l'; Ok (y :: ys)
  end.

(** ** Strings: [str()], [str.lower()] *)

Definition str_of_N (n : N) : string := NilZero.string_of_uint (N.to_uint n).
Definition str_of_nat (n : nat) : string := NilZero.string_of_uint (Nat.to_uint n).

Fixpoint zeros (n : nat) : string :=
  match n with O => "" | S n' => String "0" (zeros n') end.

(** ["%0<w>d" % n] *)
Definition zfill (w : nat) (n : N) : string :=
  let s := str_of_N n in zeros (w - String.length s) +:+ s.

(** [datetime.__str__], that is [isoformat(sep=' ')] of a naive datetime. *)
Definition datetime_str (d : datetime) : string :=
  zfill 4 (year d) +:+ "-" +:+ zfill 2 (month d) +:+ "-" +:+ zfill 2 (day d) +:+ " " +:+
  zfill 2 (hour d) +:+ ":" +:+ zfill 2 (minute d) +:+ ":" +:+ zfill 2 (second d) +:+
  (if N.eqb (microsecond d) 0 then "" else "." +:+ zfill 6 (microsecond d)).

Definition py_str (v : value) : string :=
  match v with
  | VStr s => s
  | VNone => "None"
  | VBool true => "True"
  | VBool false => "False"
  | VDate d => datetime_str d
  | VOid hex => hex
  end.

(** [str.lower] on the ASCII letters; strings are UTF-8 byte strings here and
    bytes outside A-Z are left as they are. *)
Definition lower_ascii (c : ascii) : ascii :=
  let n := N_of_ascii c in
  if (65 <=? n)%N && (n <=? 90)%N then ascii_of_N (n + 32) else c.

Fixpoint lower (s : string) : string :=
  match s with
  | EmptyString => EmptyString
  | String c s' => String (lower_ascii c) (lower s')
  end.

(** ** Records and insertion-ordered dictionaries *)

(** One row of the table / one stored document: field name to value. *)
Abbreviation record := (gmap string value).

(** [r[k]] *)
Definition getitem (r : record) (k : string) : result value :=
  match r !! k with
  | Some v => Ok v
  | None => Err (KeyError k)
  end.

(** [r.get(k, default)] *)
Definition get_default (r : record) (k : string) (default : value) : value :=
  match r !! k with
  | Some v => v
  | None => default
  end.

(** A Python [dict] whose iteration order matters: keys in insertion order,
    no key twice. *)
Definition pydict (V : Type) := list (value * V).

Fixpoint dict_get {V : Type} (k : value) (d : pydict V) : option V :=
  match d with
  | [] => None
  | (k', v) :: d' => if decide (k = k') then Some v else dict_get k d'
  end.

(** [d[k] = v]: overwrite in place, or append a new key at the end. *)
Fixpoint dict_set {V : Type} (k : value) (v : V) (d : pydict V) : pydict V :=
  match d with
  | [] => [(k, v)]
  | (k', v') :: d' =>
      if decide (k = k') then (k', v) :: d' else (k', v') :: dict_set k v d'
  end.

(** In-place mutation of the object stored under [k] (as [d[k].append(x)]). *)
Fixpoint dict_alter {V : Type} (f : V → V) (k : value) (d : pydict V) : pydict V :=
  match d with
  | [] => []
  | (k', v) :: d' =>
      if decide (k = k') then (k', f v) :: d' else (k', v) :: dict_alter f k d'
  end.

Definition dict_keys {V : Type} (d : pydict V) : list value := d.*1.

(** ** OrderGrouper: the two grouping loops of [run] *)

(** [{"orders": [...]}] *)
Record order_entry := mk_entry { orders : list record }.

(** Lines 255-260: [collection_per_channel]. *)
Definition channel_step (collection_per_channel : pydict (list record))
    (item : record) : result (pydict (list record)) :=
  channel ← getitem item "sales-channel";
  let collection_per_channel :=
    match dict_get channel collection_per_channel with
    | None => dict_set channel [] collection_per_channel
    | Some _ => collection_per_channel
    end in
  Ok (dict_alter (λ l, l ++ [item]) channel collection_per_channel).

Definition group_by_channel (data : list record) : result (pydict (list record)) :=
  for_each channel_step data [].

(** Lines 265-272: [order_grouped_with_order_lines] of one channel. *)
Definition order_step (order_grouped_with_order_lines : pydict order_entry)
    (order : record) : result (pydict order_entry) :=
  order_id ← getitem order "order-id";
  let order_grouped_with_order_lines :=
    match dict_get order_id order_grouped_with_order_lines with
    | None => dict_set order_id (mk_entry []) order_grouped_with_order_lines
    | Some _ => order_grouped_with_order_lines
    end in
  Ok (dict_alter (λ e, mk_entry (orders e ++ [order])) order_id
        order_grouped_with_order_lines).

Definition group_by_order (channel_orders : list record) : result (pydict order_entry) :=
  for_each order_step channel_orders [].

(** The grouper as a whole: every channel batch with its orders. *)
Definition group_records (data : list record)
  : result (pydict (pydict order_entry)) :=
  collection_per_channel ← group_by_channel data;
  map_each (λ '(channel_name, channel_orders),
              batch ← group_by_order channel_orders; Ok (channel_name, batch))
           collection_per_channel.

(** The lines stored in slot (channel, order id); empty when there is none. *)
Definition slot (channel order_id : value) (g : pydict (pydict order_entry))
  : list record :=
  match dict_get channel g with
  | Some batch =>
      match dict_get order_id batch with
      | Some e => orders e
      | None => []
      end
  | None => []
  end.

Definition batch_lines (batch : pydict order_entry) : list record :=
  concat (map (λ kv, orders kv.2) batch).

Definition all_lines (g : pydict (pydict order_entry)) : list record :=
  concat (map (λ kv, batch_lines kv.2) g).

(** The number of order lines, summed over all channel batches and all
    their orders. *)
Definition count_lines (g : pydict (pydict order_entry)) : nat :=
  sum_list (map (λ kv, sum_list (map (λ kv2, length (orders kv2.2)) kv.2)) g).

(** Distinct elements in order of first appearance. *)
Fixpoint first_seen (l : list value) : list value :=
  match l with
  | [] => []
  | x :: l' => x :: filter (λ y, y ≠ x) (first_seen l')
  end.

(** The values of field [k] down a sequence of records. *)
Definition column (k : string) (data : list record) : list value :=
  omap (λ r : record, r !! k) data.

(** The records whose field [k] holds [v], in input order. *)
Definition having (k : string) (v : value) (data : list record) : list record :=
  filter (λ r : record, r !! k = Some v) data.

(** Grouping in closed form: one bucket per distinct value of field [k],
    in order of first appearance, each holding its records in input order. *)
Definition buckets_as {V : Type} (wrap : list record → V) (k : string)
    (data : list record) : pydict V :=
  map (λ v, (v, wrap (having k v data))) (first_seen (column k data)).

Definition buckets (k : string) (data : list record) : pydict (list record) :=
  buckets_as (λ l, l) k data.

Definition order_buckets (rs : list record) : pydict order_entry :=
  buckets_as mk_entry "order-id" rs.

(** The grouper's result in closed form. *)
Definition grouped (data : list record) : pydict (pydict order_entry) :=
  map (λ c, (c, order_buckets (having "sales-channel" c data)))
      (first_seen (column "sales-channel" data)).

(** Both grouping keys are present on every record. *)
Definition groupable (data : list record) : Prop :=
  Forall (λ r : record,
            is_Some (r !! "sales-channel") ∧ is_Some (r !! "order-id")) data.


(** ** RecordParser: [parse_txt_to_objects] *)

Section Parser.

(** [csv.reader(file, delimiter='\t')]: the rows of cells of the text. *)
Variable csv_reader : string → list (list string).

(** [datetime.fromisoformat] on a [str]; it raises [ValueError] on a
string it cannot parse. *)
Variable fromisoformat : string → result datetime.

(** [dict(zip(fieldnames, row))]: a later cell of a repeated column name
overwrites an earlier one. *)
Definition dict_zip (fieldnames row : list string) : record :=
foldl (λ (d : record) (kv : string * string), <[kv.1 := VStr kv.2]> d) ∅
  (zip fieldnames row).

(** One row as [csv.DictReader.__next__] builds it.  The surplus cells of
an over-long row, which Python stores under the key [None], are kept
beside the string-keyed fields; the missing cells of a short row are
filled with [None]. *)
Definition dict_row (fieldnames row : list string)
: record * option (list string) :=
let d := dict_zip fieldnames row in
let lf := length fieldnames in
let lr := length row in
if (lf <? lr)%nat then (d, Some (drop lf row))
else if (lr <? lf)%nat then
(foldl (λ (d : record) key, <[key := VNone]> d) d (drop lr fieldnames), None)
else (d, None).

(** [csv.DictReader]: the first row names the fields, blank rows are
skipped. *)
Definition DictReader (rows : list (list string))
: list (record * option (list string)) :=
match rows with
| [] => []
| fieldnames :: rest =>
map (dict_row fieldnames) (filter (λ row, row ≠ []) rest)
end.

Definition fromisoformat_value (v : value) : result datetime :=
match v with
| VStr s => fromisoformat s
| _ => Err TypeError
end.

(** Lines 41-43, the loop body. *)
Definition parse_row (row : record * option (list string))
: result (record * option (list string)) :=
purchase_date ← getitem row.1 "purchase-date";
d ← fromisoformat_value purchase_date;
Ok (<["order_date" := VDate d]> row.1, row.2).

(** A data row of a well-formed table: as many cells as the header has
names, and a purchase-date cell that [fromisoformat] parses. *)
Definition well_formed_row (fieldnames row : list string) : Prop :=
length row = length fieldnames
∧ ∃ s d, dict_zip fieldnames row !! "purchase-date" = Some (VStr s)
       ∧ fromisoformat s = Ok d.

Definition parse_txt_to_objects (file : string)
: result (list (record * option (list string))) :=
map_each parse_row (DictReader (csv_reader file)).

End Parser.

(** A reader for tables without quote characters and carriage returns, where
    [csv.reader] splits each line at the tabs and yields [[]] for a blank
    line. *)
Fixpoint split_at (sep : ascii) (s : string) : list string :=
  match s with
  | EmptyString => [EmptyString]
  | String c s' =>
      if decide (c = sep) then EmptyString :: split_at sep s'
      else match split_at sep s' with
           | [] => [String c EmptyString]
           | cell :: cells => String c cell :: cells
           end
  end.

Definition tab : ascii := ascii_of_N 9.
Definition newline : ascii := ascii_of_N 10.

Definition plain_reader (file : string) : list (list string) :=
  let lines := split_at newline file in
  let lines := match reverse lines with
               | EmptyString :: front => reverse front
               | _ => lines
               end in
  map (λ line, if decide (line = EmptyString) then [] else split_at tab line) lines.

(** A two-row table and a parser that knows its dates, for examples. *)
Definition sample_file : string :=
  "order-id" +:+ String tab "purchase-date" +:+ String newline
  ("111" +:+ String tab "2024-12-24T10:00:00" +:+ String newline
  ("222" +:+ String tab "2024-12-25T11:30:00" +:+ String newline EmptyString)).

Definition sample_fromisoformat (s : string) : result datetime :=
  if decide (s = "2024-12-24T10:00:00") then Ok (mk_datetime 2024 12 24 10 0 0 0)
  else if decide (s = "2024-12-25T11:30:00") then Ok (mk_datetime 2024 12 25 11 30 0 0)
  else Err ValueError.

(** ** OrderStore: [query_mongodb] *)

Inductive cmp_op := Gt | Lt.

(** The two shapes of condition the query uses: equality with a string, and
    a document of comparison operators against dates. *)
Inductive condition :=
  | Equals (s : string)
  | Operators (ops : list (cmp_op * datetime)).

Definition datetime_key (d : datetime) : list N :=
  [year d; month d; day d; hour d; minute d; second d; microsecond d].

Fixpoint lex_ltb (a b : list N) : bool :=
  match a, b with
  | x :: a', y :: b' => (x <? y)%N || ((x =? y)%N && lex_ltb a' b')
  | _, _ => false
  end.

(** Earlier-than on naive datetimes. *)
Definition datetime_ltb (a b : datetime) : bool :=
  lex_ltb (datetime_key a) (datetime_key b).

(** A comparison operator only matches a field that holds a date. *)
Definition op_matches (field : option value) (op : cmp_op * datetime) : bool :=
  match field with
  | Some (VDate d) =>
      match op.1 with
      | Gt => datetime_ltb op.2 d
      | Lt => datetime_ltb d op.2
      end
  | _ => false
  end.

Definition condition_matches (field : option value) (c : condition) : bool :=
  match c with
  | Equals s => bool_decide (field = Some (VStr s))
  | Operators ops => forallb (op_matches field) ops
  end.

(** [col.find(query)]: the stored documents that meet every condition. *)
Definition collection_find (query : list (string * condition)) (col : list record)
  : list record :=
  filter (λ doc : record,
            forallb (λ kc : string * condition,
                       condition_matches (doc !! kc.1) kc.2) query = true) col.

Definition start_date : datetime := mk_datetime 2024 12 23 13 45 0 0.
Definition end_date : datetime := mk_datetime 2025 1 2 17 15 0 0.

(** Lines 55-61. *)
Definition query : list (string * condition) :=
  [ ("order_date", Operators [(Gt, start_date); (Lt, end_date)]);
    ("is-buyer-requested-cancellation", Equals "false") ].

(** Lines 63-70, on the content of the collection. *)
Definition query_mongodb (col : list record) : list record :=
  collection_find query col.

(** ** ReportBuilder: [generate_amazon_xml] *)

(** An [xml.etree.ElementTree.Element]; [text] holds whatever Python value
    was assigned to it ([None] when nothing was). *)
#[local] Unset Elimination Schemes.
Inductive xml :=
  | Element (tag : string) (attrib : list (string * value)) (text : value)
            (children : list xml).
#[local] Set Elimination Schemes.

Definition tag_of (e : xml) : string := let 'Element t _ _ _ := e in t.
Definition attrib_of (e : xml) : list (string * value) := let 'Element _ a _ _ := e in a.
Definition text_of (e : xml) : value := let 'Element _ _ x _ := e in x.
Definition children_of (e : xml) : list xml := let 'Element _ _ _ c := e in c.

(** [ET.SubElement(parent, tag).text = v] *)
Definition leaf (tag : string) (v : value) : xml := Element tag [] v [].

(** [ET.SubElement(parent, tag)] that only receives children. *)
Definition node (tag : string) (children : list xml) : xml :=
  Element tag [] VNone children.

(** [ET.SubElement(parent, "Amount", {"currency": c}).text = v] *)
Definition amount (currency : value) (v : string) : xml :=
  Element "Amount" [("currency", currency)] (VStr v) [].


(** Lines 189-221: one [Item] per order line.  In an assignment Python
    evaluates the right-hand side before the target, so each price is read
    before the currency of its [Amount]. *)
Definition build_item (item : record) : result xml :=
  order_item_id ← getitem item "order-item-id";
  sku ← getitem item "sku";
  product_name ← getitem item "product-name";
  quantity_purchased ← getitem item "quantity-purchased";
  item_price ← getitem item "item-price";
  currency1 ← getitem item "currency";
  shipping_price ← getitem item "shipping-price";
  currency2 ← getitem item "currency";
  item_tax ← getitem item "item-tax";
  currency3 ← getitem item "currency";
  shipping_tax ← getitem item "shipping-tax";
  currency4 ← getitem item "currency";
  payment_method_fee ← getitem item "payment-method-fee";
  currency5 ← getitem item "currency";
  Ok (node "Item"
        [ leaf "AmazonOrderItemCode" order_item_id;
          leaf "SKU" sku;
          leaf "Title" product_name;
          leaf "Quantity" (VStr (py_str quantity_purchased));
          leaf "ProductTaxCode" (VStr "A_GEN_STANDARD");
          node "ItemPrice"
            [ node "Component"
                [ leaf "Type" (VStr "Principal");
                  amount currency1 (py_str item_price) ];
              node "Component"
                [ leaf "Type" (VStr "Shipping");
                  amount currency2 (py_str shipping_price) ];
              node "Component"
                [ leaf "Type" (VStr "Tax");
                  amount currency3 (py_str item_tax) ];
              node "Component"
                [ leaf "Type" (VStr "ShippingTax");
                  amount currency4 (py_str shipping_tax) ] ];
          node "ItemFees"
            [ node "Fee"
                [ leaf "Type" (VStr "Commission");
                  amount currency5 (py_str payment_method_fee) ] ] ]).

(** [str(order.get(k, False)).lower()] *)
Definition flag_text (order : record) (k : string) : value :=
  VStr (lower (py_str (get_default order k (VBool false)))).

(** [orders[order_id]["orders"][0]] *)
Definition first_line (entry : order_entry) : result record :=
  match orders entry with
  | order :: _ => Ok order
  | [] => Err IndexError
  end.

(** Lines 137-221: the [Message] of one order; [session] is the text of
    the [uuid.uuid4()] drawn for it. *)
Definition build_message (message_id : nat) (order_id : value)
    (entry : order_entry) (session : string) : result xml :=
  order ← first_line entry;
  purchase_date ← getitem order "purchase-date";
  payments_date ← getitem order "payments-date";
  buyer_email ← getitem order "buyer-email";
  buyer_name ← getitem order "buyer-name";
  let buyer_phone_number := get_default order "buyer-phone-number" (VStr "") in
  bill_name ← getitem order "bill-name";
  bill_address_1 ← getitem order "bill-address-1";
  bill_address_2 ← getitem order "bill-address-2";
  bill_address_3 ← getitem order "bill-address-3";
  bill_city ← getitem order "bill-city";
  bill_state ← getitem order "bill-state";
  bill_postal_code ← getitem order "bill-postal-code";
  bill_country ← getitem order "bill-country";
  ship_service_level ← getitem order "ship-service-level";
  recipient_name ← getitem order "recipient-name";
  ship_address_1 ← getitem order "ship-address-1";
  ship_address_2 ← getitem order "ship-address-2";
  ship_address_3 ← getitem order "ship-address-3";
  ship_city ← getitem order "ship-city";
  ship_state ← getitem order "ship-state";
  ship_postal_code ← getitem order "ship-postal-code";
  ship_country ← getitem order "ship-country";
  let ship_phone_number := get_default order "ship-phone-number" (VStr "") in
  items ← map_each build_item (orders entry);
  Ok (node "Message"
        [ leaf "MessageID" (VStr (str_of_nat message_id));
          node "OrderReport"
            ([ leaf "AmazonOrderID" order_id;
               leaf "AmazonSessionID" (VStr session);
               leaf "OrderDate" purchase_date;
               leaf "OrderPostedDate" payments_date;
               node "BillingData"
                 [ leaf "BuyerEmailAddress" buyer_email;
                   leaf "BuyerName" buyer_name;
                   leaf "BuyerPhoneNumber" buyer_phone_number;
                   node "Address"
                     [ leaf "Name" bill_name;
                       leaf "AddressFieldOne" bill_address_1;
                       leaf "AddressFieldTwo" bill_address_2;
                       leaf "AddressFieldThree" bill_address_3;
                       leaf "City" bill_city;
                       leaf "StateOrRegion" bill_state;
                       leaf "PostalCode" bill_postal_code;
                       leaf "CountryCode" bill_country ] ];
               node "FulfillmentData"
                 [ leaf "FulfillmentMethod" (VStr "Ship");
                   leaf "FulfillmentServiceLevel" ship_service_level;
                   node "Address"
                     [ leaf "Name" recipient_name;
                       leaf "AddressFieldOne" ship_address_1;
                       leaf "AddressFieldTwo" ship_address_2;
                       leaf "AddressFieldThree" ship_address_3;
                       leaf "City" ship_city;
                       leaf "StateOrRegion" ship_state;
                       leaf "PostalCode" ship_postal_code;
                       leaf "CountryCode" ship_country;
                       leaf "PhoneNumber" ship_phone_number ] ];
               leaf "IsBusinessOrder" (flag_text order "is-business-order");
               leaf "IsPrime" (flag_text order "is-prime");
               leaf "IsPremiumOrder" (flag_text order "is-premium-order");
               leaf "IsIba" (flag_text order "is-iba") ]
             ++ items) ]).

(** The keys [build_message] reads with [order[...]] on the first line, and
    those [build_item] reads on every line, in reading order. *)
Definition order_fields : list string :=
  [ "purchase-date"; "payments-date"; "buyer-email"; "buyer-name";
    "bill-name"; "bill-address-1"; "bill-address-2"; "bill-address-3";
    "bill-city"; "bill-state"; "bill-postal-code"; "bill-country";
    "ship-service-level"; "recipient-name";
    "ship-address-1"; "ship-address-2"; "ship-address-3";
    "ship-city"; "ship-state"; "ship-postal-code"; "ship-country" ].

Definition item_fields : list string :=
  [ "order-item-id"; "sku"; "product-name"; "quantity-purchased";
    "item-price"; "currency"; "shipping-price"; "item-tax"; "shipping-tax";
    "payment-method-fee" ].

Definition has_fields (ks : list string) (r : record) : Prop :=
  Forall (λ k, is_Some (r !! k)) ks.

(** An order that can be rendered: it has a first line, which carries the
    order-level fields, and all its lines carry the item fields. *)
Definition renderable_entry (e : order_entry) : Prop :=
  (∃ first rest, orders e = first :: rest ∧ has_fields order_fields first)
  ∧ Forall (has_fields item_fields) (orders e).


Definition renderable (batch : pydict order_entry) : Prop :=
  Forall (λ kv, renderable_entry kv.2) batch.

Section Report.

(** [str(uuid.uuid4())], by the number of calls made before. *)
Variable uuid4 : nat → string.

(** Line 136: [for message_id, order_id in enumerate(orders, start=1)]. *)
Fixpoint build_messages (message_id calls : nat) (batch : pydict order_entry)
: result (list xml) :=
match batch with
| [] => Ok []
| (order_id, entry) :: rest =>
message ← build_message message_id order_id entry (uuid4 calls);
messages ← build_messages (S message_id) (S calls) rest;
Ok (message :: messages)
end.

(** Lines 124-221: the element tree of one channel's envelope; [calls] is
the number of [uuid4] calls made so far. *)
Definition build_envelope (calls : nat) (batch : pydict order_entry)
(merchant_id : string) : result xml :=
messages ← build_messages 1 calls batch;
Ok (Element "AmazonEnvelope"
  [ ("xmlns:xsi", VStr "http://www.w3.org/2001/XMLSchema-instance");
    ("xsi:noNamespaceSchemaLocation", VStr "amzn-envelope.xsd") ]
  VNone
  ([ node "Header"
       [ leaf "DocumentVersion" (VStr "1.01");
         leaf "MerchantIdentifier" (VStr merchant_id) ];
     leaf "MessageType" (VStr "OrderReport") ]
   ++ messages)).

End Report.

(** ** Serialisation: [ET.tostring(envelope, encoding="utf-8")] *)

Definition dquote : string := String (ascii_of_N 34) EmptyString.

Fixpoint replace_chars (f : ascii → option string) (s : string) : string :=
  match s with
  | EmptyString => EmptyString
  | String c s' =>
      match f c with
      | Some r => r +:+ replace_chars f s'
      | None => String c (replace_chars f s')
      end
  end.

(** [_escape_cdata]: the successive [replace] calls for [&], [<] and [>]
    amount to one pass, none of the replacements containing a later
    pattern. *)
Definition escape_cdata (s : string) : string :=
  replace_chars (λ c,
    if decide (c = "&"%char) then Some "&amp;"
    else if decide (c = "<"%char) then Some "&lt;"
    else if decide (c = ">"%char) then Some "&gt;"
    else None) s.

(** [_escape_attrib] *)
Definition escape_attrib (s : string) : string :=
  replace_chars (λ c,
    if decide (c = "&"%char) then Some "&amp;"
    else if decide (c = "<"%char) then Some "&lt;"
    else if decide (c = ">"%char) then Some "&gt;"
    else if decide (c = ascii_of_N 34) then Some "&quot;"
    else if decide (c = ascii_of_N 13) then Some "&#13;"
    else if decide (c = ascii_of_N 10) then Some "&#10;"
    else if decide (c = ascii_of_N 9) then Some "&#09;"
    else None) s.

(** An attribute value that is not a [str] cannot be serialised. *)
Definition serialize_attrib (kv : string * value) : result string :=
  match kv.2 with
  | VStr s => Ok (" " +:+ kv.1 +:+ "=" +:+ dquote +:+ escape_attrib s +:+ dquote)
  | _ => Err TypeError
  end.

(** The text of an element: nothing for a false value ([None], the empty
    string, [False]), the escaped string for a [str], an error otherwise. *)
Definition serialize_text (v : value) : result string :=
  match v with
  | VNone | VBool false => Ok ""
  | VStr s => Ok (escape_cdata s)
  | _ => Err TypeError
  end.

Definition truthy (v : value) : bool :=
  match v with
  | VNone | VBool false | VStr EmptyString => false
  | _ => true
  end.

(** The outputs of the children one after the other, up to the first one
    that fails. *)
Fixpoint join_results (rs : list (result string)) : result string :=
  match rs with
  | [] => Ok ""
  | r :: rs' => s ← r; t ← join_results rs'; Ok (s +:+ t)
  end.

(** [_serialize_xml] with [short_empty_elements] on. *)
Fixpoint serialize (e : xml) : result string :=
  match e with
  | Element tag attrib text children =>
      attrs ← map_each serialize_attrib attrib;
      if truthy text || negb (bool_decide (children = [])) then
        body ← serialize_text text;
        inner ← join_results (map serialize children);
        Ok ("<" +:+ tag +:+ String.concat "" attrs +:+ ">" +:+ body +:+ inner
            +:+ "</" +:+ tag +:+ ">")
      else Ok ("<" +:+ tag +:+ String.concat "" attrs +:+ " />")
  end.

Definition default_merchant_id : string := "A2DKZN1W9ZO5KL".

(** Lines 115-225. *)
Definition generate_amazon_xml (uuid4 : nat → string) (calls : nat)
    (batch : pydict order_entry) (merchant_id : string) : result string :=
  amazon_envelope ← build_envelope uuid4 calls batch merchant_id;
  serialize amazon_envelope.

(** The tree with the text of every [AmazonSessionID] element removed. *)
Fixpoint mask_session (e : xml) : xml :=
  match e with
  | Element tag attrib text children =>
      Element tag attrib
        (if decide (tag = "AmazonSessionID") then VNone else text)
        (map mask_session children)
  end.

(** The compact XML of a batch with the session ids left out of it. *)
Definition generate_masked_xml (uuid4 : nat → string) (calls : nat)
    (batch : pydict order_entry) (merchant_id : string) : result string :=
  amazon_envelope ← build_envelope uuid4 calls batch merchant_id;
  serialize (mask_session amazon_envelope).

(** Whether every [AmazonSessionID] element of the tree holds a string. *)
Fixpoint session_is_str (e : xml) : bool :=
  match e with
  | Element tag _ text children =>
      (if decide (tag = "AmazonSessionID")
       then match text with VStr _ => true | _ => false end
       else true)
      && forallb session_is_str children
  end.

(** The exception a computation ends with, if any. *)
Definition raised {A : Type} (r : result A) : option exn :=
  match r with
  | Ok _ => None
  | Err e => Some e
  end.

(** Tree navigation, as [Element.findall] and [Element.find] on child
    tags. *)
Definition findall (tag : string) (e : xml) : list xml :=
  filter (λ c, tag_of c = tag) (children_of e).

Fixpoint find_path (path : list string) (e : xml) : option xml :=
  match path with
  | [] => Some e
  | tag :: path' =>
      match findall tag e with
      | c :: _ => find_path path' c
      | [] => None
      end
  end.

Definition findtext (path : list string) (e : xml) : option value :=
  text_of <$> find_path path e.

(** ** Orchestrator: lines 255-280 of [run] *)

(** [os.path.join(directory, name)]: an absolute [name] replaces the
    directory. *)
Definition path_join (directory name : string) : string :=
  match name with
  | String "/" _ => name
  | _ => directory +:+ "/" +:+ name
  end.

(** What the loop changes: the files under their paths, and the number of
    [uuid4] calls made. *)
Record world := mk_world {
  files : gmap string string;
  uuid_calls : nat
}.

Section Run.

Variable uuid4 : nat → string.

(** [minidom.parseString(xml_data).toprettyxml(encoding="utf-8")] *)
Variable toprettyxml : string → result string.

(** Lines 97-112; every [open] is taken to succeed. *)
Definition save_xml_to_out_directory (xml_data output_file formatted_file : string)
(fs : gmap string string) : gmap string string * result unit :=
let fs := <[path_join "out" output_file := xml_data]> fs in
match toprettyxml xml_data with
| Ok pretty_xml => (<[path_join "out" formatted_file := pretty_xml]> fs, Ok ())
| Err e => (fs, Err e)
end.

(** Lines 264-278: the loop over [collection_per_channel.items()].  An
exception leaves the loop at once; what was written stays written. *)
Fixpoint process_channels (channels : pydict (list record)) (w : world)
(counter : nat) : world * result nat :=
match channels with
| [] => (w, Ok counter)
| (channel_name, channel_orders) :: rest =>
match group_by_order channel_orders with
| Err e => (w, Err e)
| Ok order_grouped_with_order_lines =>
    let counter := counter + length order_grouped_with_order_lines in
    match generate_amazon_xml uuid4 (uuid_calls w)
            order_grouped_with_order_lines default_merchant_id with
    | Err e => (w, Err e)
    | Ok xml_report =>
        let calls := uuid_calls w + length order_grouped_with_order_lines in
        match save_xml_to_out_directory xml_report
                (py_str channel_name +:+ ".xml")
                (py_str channel_name +:+ ".formatted.xml")
                (files w) with
        | (fs, Err e) => (mk_world fs calls, Err e)
        | (fs, Ok _) => process_channels rest (mk_world fs calls) counter
        end
    end
end
end.

(** Lines 255-280: group the queried records by channel, then render and
write channel after channel. *)
Definition process_data (data : list record) (w : world) : world * result nat :=
match group_by_channel data with
| Err e => (w, Err e)
| Ok collection_per_channel => process_channels collection_per_channel w 0
end.

End Run.

(** ** The store filter as the specification words it *)

(** Start instant included, end instant excluded, and the cancellation flag
    equal to the string [false]. *)
Definition in_inclusive_exclusive_range (doc : record) : bool :=
  match doc !! "order_date" with
  | Some (VDate d) => negb (datetime_ltb d start_date) && datetime_ltb d end_date
  | _ => false
  end.

Definition spec_selected (doc : record) : bool :=
  in_inclusive_exclusive_range doc
  && bool_decide (doc !! "is-buyer-requested-cancellation" = Some (VStr "false")).

(** ** Sample data *)

(** A stored order dated at the very start instant of the query. *)
Definition order_at_start : record :=
  {[ "order_date" := VDate start_date;
     "is-buyer-requested-cancellation" := VStr "false" ]}.


Definition sample_line (channel order_id item_id : string) : record :=
  list_to_map
    [ ("sales-channel", VStr channel); ("order-id", VStr order_id);
      ("order-item-id", VStr item_id); ("sku", VStr "SKU-1");
      ("product-name", VStr "Mug"); ("quantity-purchased", VStr "2");
      ("currency", VStr "USD"); ("item-price", VStr "19.99");
      ("shipping-price", VStr "4.50"); ("item-tax", VStr "1.60");
      ("shipping-tax", VStr "0.36"); ("payment-method-fee", VStr "0.00");
      ("purchase-date", VStr "2024-12-24T10:00:00+00:00");
      ("payments-date", VStr "2024-12-24T10:05:00+00:00");
      ("buyer-email", VStr "a@b.c"); ("buyer-name", VStr "Ann");
      ("bill-name", VStr "Ann"); ("bill-address-1", VStr "1 Main St");
      ("bill-address-2", VStr ""); ("bill-address-3", VStr "");
      ("bill-city", VStr "Town"); ("bill-state", VStr "NY");
      ("bill-postal-code", VStr "10001"); ("bill-country", VStr "US");
      ("ship-service-level", VStr "Standard"); ("recipient-name", VStr "Ann");
      ("ship-address-1", VStr "1 Main St"); ("ship-address-2", VStr "");
      ("ship-address-3", VStr ""); ("ship-city", VStr "Town");
      ("ship-state", VStr "NY"); ("ship-postal-code", VStr "10001");
      ("ship-country", VStr "US");
      ("is-buyer-requested-cancellation", VStr "false") ].


Definition sample_uuid (n : nat) : string := "uuid-" +:+ str_of_nat n.
Definition no_pretty (xml_data : string) : result string := Ok xml_data.
Definition empty_world : world := mk_world ∅ 0.
(** ** Notions for the further properties *)

(** The first key of [ks], in order, that the record does not hold. *)
Fixpoint first_missing (ks : list string) (r : record) : option string :=
  match ks with
  | [] => None
  | k :: ks' =>
      match r !! k with
      | None => Some k
      | Some _ => first_missing ks' r
      end
  end.

(** The keys [build_message] reads with [order.get(...)]. *)
Definition optional_fields : list string :=
  [ "buyer-phone-number"; "ship-phone-number";
    "is-business-order"; "is-prime"; "is-premium-order"; "is-iba" ].

(** The [Item] elements of a message, and of a whole envelope, in document
    order. *)
Definition report_items (m : xml) : list xml :=
  match find_path ["OrderReport"] m with
  | Some report => findall "Item" report
  | None => []
  end.

Definition envelope_items (env : xml) : list xml :=
  concat (map report_items (findall "Message" env)).

(** Two records that agree on the keys [ks]. *)
Definition agree_on (ks : list string) (r1 r2 : record) : Prop :=
  Forall (λ k, r1 !! k = r2 !! k) ks.

(** The two files [run] writes for a channel. *)
Definition compact_path (channel_name : value) : string :=
  path_join "out" (py_str channel_name +:+ ".xml").

Definition formatted_path (channel_name : value) : string :=
  path_join "out" (py_str channel_name +:+ ".formatted.xml").

(** The number of orders of a sequence of channels: the distinct order ids,
    channel by channel. *)
Definition count_orders (channels : pydict (list record)) : nat :=
  sum_list (map (λ kv, length (first_seen (column "order-id" kv.2))) channels).

(** A value that can stand as the text of an element: a string, or
    [None]. *)
Definition text_value (v : value) : Prop := v = VNone ∨ ∃ s, v = VStr s.

(** The keys whose values become element texts as they are. *)
Definition text_keys : list string :=
  order_fields
  ++ [ "buyer-phone-number"; "ship-phone-number";
       "order-item-id"; "sku"; "product-name" ].

(** A line whose values, where it has them, can be serialised: strings or
    [None] under the text keys, a string as currency. *)
Definition plain_line (r : record) : Prop :=
  Forall (λ k, ∀ v, r !! k = Some v → text_value v) text_keys
  ∧ ∀ v, r !! "currency" = Some v → ∃ s, v = VStr s.

(** A tree the serialiser accepts: string attributes, and texts that are
    strings or [None]. *)
Fixpoint serializable (e : xml) : bool :=
  match e with
  | Element _ attrib text children =>
      forallb (λ kv : string * value,
                 match kv.2 with VStr _ => true | _ => false end) attrib
      && match text with VStr _ | VNone => true | _ => false end
      && forallb serializable children
  end.

(** * Properties *)

(** ** Loops and dictionaries *)

Lemma for_each_app {A S : Type} (body : S → A → result S) (l1 l2 : list A) (s : S) :
  for_each body (l1 ++ l2) s = for_each body l1 s ≫= for_each body l2.
Proof.
  revert s. induction l1 as [|x l1 IH]; intros s; simpl; [done|].
  destruct (body s x) as [s'|e]; simpl; [apply IH | done].
Qed.

Lemma elem_of_first_seen (x : value) (l : list value) :
  x ∈ first_seen l ↔ x ∈ l.
Proof.
  induction l as [|a l IH]; simpl; [done|].
  rewrite !elem_of_cons, list_elem_of_filter, IH.
  destruct (decide (x = a)); naive_solver.
Qed.

Lemma NoDup_first_seen (l : list value) : NoDup (first_seen l).
Proof.
  induction l as [|a l IH]; simpl; [constructor|].
  constructor; [|by apply NoDup_filter].
  rewrite list_elem_of_filter. naive_solver.
Qed.

Lemma first_seen_snoc (l : list value) (x : value) :
  first_seen (l ++ [x]) = if decide (x ∈ l) then first_seen l else first_seen l ++ [x].
Proof.
  induction l as [|a l IH]; simpl; [done|].
  rewrite IH. destruct (decide (x ∈ l)) as [Hin|Hin].
  - rewrite decide_True by (by right). done.
  - rewrite filter_app. destruct (decide (x = a)) as [->|Hne].
    + rewrite decide_True by (by left).
      rewrite filter_cons_False by naive_solver. simpl. by rewrite app_nil_r.
    + rewrite decide_False by (rewrite elem_of_cons; naive_solver).
      rewrite filter_cons_True by done. done.
Qed.

Section Tabulated.
Context {V : Type} (F : value → V).

Lemma dict_get_tabulate (k : value) (ks : list value) :
dict_get k (map (λ v, (v, F v)) ks) = if decide (k ∈ ks) then Some (F k) else None.
Proof.
induction ks as [|a ks IH]; simpl; [done|].
destruct (decide (k = a)) as [->|Hne].
- rewrite decide_True by (by left). done.
- rewrite IH. destruct (decide (k ∈ ks)).
+ rewrite decide_True by (by right). done.
+ rewrite decide_False by (rewrite elem_of_cons; naive_solver). done.
Qed.

Lemma dict_set_tabulate_fresh (k : value) (ks : list value) :
k ∉ ks →
dict_set k (F k) (map (λ v, (v, F v)) ks) = map (λ v, (v, F v)) (ks ++ [k]).
Proof.
induction ks as [|a ks IH]; simpl; intros Hk; [done|].
rewrite not_elem_of_cons in Hk. destruct Hk as [Hne Hk].
rewrite decide_False by done. by rewrite IH.
Qed.

Lemma dict_alter_tabulate (f : V → V) (k : value) (ks : list value) :
NoDup ks →
dict_alter f k (map (λ v, (v, F v)) ks)
= map (λ v, (v, if decide (v = k) then f (F v) else F v)) ks.
Proof.
induction 1 as [|a ks Ha Hnd IH]; simpl; [done|].
destruct (decide (k = a)) as [->|Hne].
- rewrite decide_True by done. f_equal.
apply map_ext_in. intros v Hv. apply list_elem_of_In in Hv.
rewrite decide_False by (intros ->; done). done.
- rewrite decide_False by done. by rewrite IH.
Qed.
End Tabulated.

(** ** The grouping loops in closed form *)

Lemma column_snoc (k : string) (data : list record) (x : record) (c : value) :
  x !! k = Some c → column k (data ++ [x]) = column k data ++ [c].
Proof. intros Hx. unfold column. rewrite omap_app. simpl. by rewrite Hx. Qed.

Lemma having_snoc (k : string) (v : value) (data : list record) (x : record) (c : value) :
  x !! k = Some c →
  having k v (data ++ [x]) = having k v data ++ (if decide (c = v) then [x] else []).
Proof.
  intros Hx. unfold having. rewrite filter_app. f_equal.
  destruct (decide (c = v)) as [->|Hne].
  - by rewrite filter_cons_True.
  - rewrite filter_cons_False; [done|]. rewrite Hx. congruence.
Qed.

Lemma having_absent (k : string) (v : value) (data : list record) :
  v ∉ column k data → having k v data = [].
Proof.
  intros Hv. unfold having. induction data as [|r data IH]; [done|].
  unfold column in Hv. simpl in Hv.
  destruct (r !! k) as [w|] eqn:Hr.
  - apply not_elem_of_cons in Hv as [Hne Hv].
    rewrite filter_cons_False by (rewrite Hr; congruence). by apply IH.
  - rewrite filter_cons_False by (rewrite Hr; congruence). by apply IH.
Qed.

Section Bucketing.
Context {V : Type} (wrap : list record → V) (push : record → V → V).
Hypothesis push_wrap : ∀ l x, push x (wrap l) = wrap (l ++ [x]).

Lemma bucket_step (k : string) (data : list record) (x : record) (c : value) :
x !! k = Some c →
dict_alter (push x) c
(match dict_get c (buckets_as wrap k data) with
 | None => dict_set c (wrap []) (buckets_as wrap k data)
 | Some _ => buckets_as wrap k data
 end)
= buckets_as wrap k (data ++ [x]).
Proof.
intros Hx. unfold buckets_as.
rewrite (dict_get_tabulate (λ v, wrap (having k v data))).
rewrite (column_snoc _ _ _ _ Hx), first_seen_snoc.
set (ks := first_seen (column k data)).
assert (Hstep : ∀ ks', NoDup ks' →
dict_alter (push x) c (map (λ v, (v, wrap (having k v data))) ks')
= map (λ v, (v, wrap (having k v (data ++ [x])))) ks').
{ intros ks' Hnd.
rewrite (dict_alter_tabulate (λ v, wrap (having k v data))) by done.
apply map_ext. intros v. f_equal. rewrite (having_snoc _ _ _ _ _ Hx).
destruct (decide (v = c)) as [->|Hne].
- rewrite decide_True by done. apply push_wrap.
- rewrite decide_False by done. by rewrite app_nil_r. }
destruct (decide (c ∈ ks)) as [Hin|Hin].
- rewrite decide_True by (by apply elem_of_first_seen).
apply Hstep, NoDup_first_seen.
- assert (Hc : c ∉ column k data) by (by rewrite <- elem_of_first_seen).
rewrite decide_False by done.
replace (wrap []) with (wrap (having k c data))
by (by rewrite (having_absent _ _ _ Hc)).
rewrite (dict_set_tabulate_fresh (λ v, wrap (having k v data))) by done.
apply Hstep. apply NoDup_app. split; [apply NoDup_first_seen|].
split; [|apply NoDup_singleton].
intros v Hv Hv'. apply list_elem_of_singleton in Hv'. by subst.
Qed.
End Bucketing.

Lemma group_by_channel_buckets (data : list record) :
  Forall (λ r : record, is_Some (r !! "sales-channel")) data →
  group_by_channel data = Ok (buckets "sales-channel" data).
Proof.
  unfold group_by_channel.
  induction data as [|x data IH] using rev_ind; intros Hall; [done|].
  apply Forall_app in Hall as [Hall Hx]. apply Forall_singleton in Hx as [c Hc].
  rewrite for_each_app, (IH Hall). simpl.
  unfold channel_step, getitem. rewrite Hc. simpl. f_equal.
  apply (bucket_step (λ l, l) (λ x l, l ++ [x])); done.
Qed.

Lemma group_by_order_buckets (rs : list record) :
  Forall (λ r : record, is_Some (r !! "order-id")) rs →
  group_by_order rs = Ok (order_buckets rs).
Proof.
  unfold group_by_order.
  induction rs as [|x rs IH] using rev_ind; intros Hall; [done|].
  apply Forall_app in Hall as [Hall Hx]. apply Forall_singleton in Hx as [c Hc].
  rewrite for_each_app, (IH Hall). simpl.
  unfold order_step, getitem. rewrite Hc. simpl. f_equal.
  apply (bucket_step mk_entry (λ x e, mk_entry (orders e ++ [x]))); done.
Qed.

Lemma map_each_tabulate {A B C : Type} (f : B → result C) (g : A → B) (h : A → C)
    (ks : list A) :
  (∀ v, v ∈ ks → f (g v) = Ok (h v)) →
  map_each f (map g ks) = Ok (map h ks).
Proof.
  induction ks as [|a ks IH]; intros Hf; simpl; [done|].
  rewrite Hf by (by left). simpl.
  rewrite IH by (intros v Hv; apply Hf; by right). done.
Qed.

Lemma having_Forall (P : record → Prop) (k : string) (v : value) (data : list record) :
  Forall P data → Forall P (having k v data).
Proof.
  intros H. unfold having. rewrite Forall_forall in *.
  intros r Hr. apply list_elem_of_filter in Hr as [_ Hr]. by apply H.
Qed.

Lemma group_records_grouped (data : list record) :
  groupable data → group_records data = Ok (grouped data).
Proof.
  intros Hall. unfold group_records.
  rewrite group_by_channel_buckets
    by (eapply Forall_impl; [exact Hall | by intros r [? ?]]).
  simpl. unfold buckets, buckets_as, grouped.
  apply map_each_tabulate. intros c _.
  rewrite group_by_order_buckets; [done|].
  apply having_Forall. eapply Forall_impl; [exact Hall | by intros r [? ?]].
Qed.

Lemma having_having (k1 k2 : string) (v1 v2 : value) (data : list record) :
  having k2 v2 (having k1 v1 data)
  = filter (λ r : record, r !! k1 = Some v1 ∧ r !! k2 = Some v2) data.
Proof.
  unfold having. rewrite list_filter_filter.
  apply list_filter_iff. intros r. tauto.
Qed.

Lemma slot_grouped (data : list record) (channel order_id : value) :
  slot channel order_id (grouped data)
  = filter (λ r : record, r !! "sales-channel" = Some channel
                          ∧ r !! "order-id" = Some order_id) data.
Proof.
  rewrite <- having_having. unfold slot, grouped.
  rewrite (dict_get_tabulate (λ c, order_buckets (having "sales-channel" c data))).
  destruct (decide (channel ∈ _)) as [Hc|Hc].
  - unfold order_buckets, buckets_as.
    rewrite (dict_get_tabulate
               (λ o, mk_entry (having "order-id" o (having "sales-channel" channel data)))).
    destruct (decide (order_id ∈ _)) as [Ho|Ho]; [done|].
    symmetry. apply having_absent. by rewrite <- elem_of_first_seen.
  - rewrite elem_of_first_seen in Hc.
    by rewrite (having_absent _ _ _ Hc).
Qed.

Lemma concat_map_perm {A B : Type} (f g : A → list B) (ks : list A) :
  (∀ v, v ∈ ks → f v ≡ₚ g v) → concat (map f ks) ≡ₚ concat (map g ks).
Proof.
  induction ks as [|a ks IH]; intros Hfg; simpl; [done|].
  rewrite (Hfg a) by (by left).
  rewrite IH by (intros v Hv; apply Hfg; by right). done.
Qed.

Lemma concat_having_perm (k : string) (ks : list value) (data : list record) :
  NoDup ks →
  (∀ r : record, r ∈ data → ∃ v, v ∈ ks ∧ r !! k = Some v) →
  concat (map (λ v, having k v data) ks) ≡ₚ data.
Proof.
  intros Hnd. revert data.
  induction Hnd as [|a ks Ha Hnd IH]; intros data Hcov; simpl.
  - destruct data as [|r data]; [done|].
    destruct (Hcov r) as (v & Hv & _); [by left|]. by apply elem_of_nil in Hv.
  - set (rest := filter (λ r : record, ¬ r !! k = Some a) data).
    rewrite (concat_map_perm _ (λ v, having k v rest)).
    + rewrite IH.
      * unfold having, rest. apply filter_app_complement.
      * intros r Hr. unfold rest in Hr. apply list_elem_of_filter in Hr as [Hne Hr].
        destruct (Hcov r Hr) as (v & Hv & Hk).
        apply elem_of_cons in Hv as [->|Hv]; [done|]. eauto.
    + intros v Hv. unfold having, rest. rewrite list_filter_filter.
      replace (filter (λ r : record, r !! k = Some v) data)
        with (filter (λ r : record, r !! k = Some v ∧ ¬ r !! k = Some a) data);
        [done|].
      apply list_filter_iff. intros r. split; [tauto|].
      intros Hr. split; [done|]. rewrite Hr. intros [= ->]. done.
Qed.

Lemma first_seen_covers (k : string) (data : list record) :
  Forall (λ r : record, is_Some (r !! k)) data →
  ∀ r : record, r ∈ data → ∃ v, v ∈ first_seen (column k data) ∧ r !! k = Some v.
Proof.
  intros Hall r Hr. rewrite Forall_forall in Hall.
  destruct (Hall r Hr) as [v Hv]. exists v. split; [|done].
  apply elem_of_first_seen. unfold column. apply list_elem_of_omap. eauto.
Qed.

Lemma batch_lines_order_buckets (rs : list record) :
  Forall (λ r : record, is_Some (r !! "order-id")) rs →
  batch_lines (order_buckets rs) ≡ₚ rs.
Proof.
  intros Hall. unfold batch_lines, order_buckets, buckets_as.
  rewrite map_map. simpl.
  apply concat_having_perm; [apply NoDup_first_seen | by apply first_seen_covers].
Qed.

Lemma all_lines_grouped (data : list record) :
  groupable data → all_lines (grouped data) ≡ₚ data.
Proof.
  intros Hall. unfold all_lines, grouped. rewrite map_map. simpl.
  rewrite (concat_map_perm _ (λ c, having "sales-channel" c data)).
  - apply concat_having_perm; [apply NoDup_first_seen|].
    apply first_seen_covers. eapply Forall_impl; [exact Hall | by intros r [? ?]].
  - intros c _. apply batch_lines_order_buckets, having_Forall.
    eapply Forall_impl; [exact Hall | by intros r [? ?]].
Qed.

Lemma count_lines_length (g : pydict (pydict order_entry)) :
  count_lines g = length (all_lines g).
Proof.
  unfold count_lines, all_lines. induction g as [|[c batch] g IH]; simpl; [done|].
  rewrite length_app, IH. f_equal.
  unfold batch_lines. induction batch as [|[o e] batch IHb]; simpl; [done|].
  by rewrite length_app, IHb.
Qed.

Lemma dict_keys_tabulate {V : Type} (F : value → V) (ks : list value) :
  dict_keys (map (λ v, (v, F v)) ks) = ks.
Proof. unfold dict_keys. induction ks as [|a ks IH]; simpl; [done|]. by f_equal. Qed.

(** C1. Grouping partitions the records exactly: when every record carries
    its sales-channel and order-id, the grouper returns a result whose order
    lines, summed over all channel batches and all orders, are as many as
    the input records and are a rearrangement of them; no channel and no
    order id within a channel is listed twice; and the slot of each
    (channel, order id) holds exactly the input records with these two field
    values, in input order, so that every record sits in the one slot named
    by its own fields. *)
Theorem grouping_partitions_records (data : list record) :
  groupable data →
  ∃ g, group_records data = Ok g
     ∧ count_lines g = length data
     ∧ all_lines g ≡ₚ data
     ∧ NoDup (dict_keys g)
     ∧ Forall (λ kv, NoDup (dict_keys kv.2)) g
     ∧ ∀ channel order_id,
         slot channel order_id g
         = filter (λ r : record, r !! "sales-channel" = Some channel
                                 ∧ r !! "order-id" = Some order_id) data.
Proof.
  intros Hall. exists (grouped data).
  split; [by apply group_records_grouped|].
  split; [rewrite count_lines_length; by rewrite all_lines_grouped|].
  split; [by apply all_lines_grouped|].
  split.
  { unfold grouped.
    rewrite (dict_keys_tabulate (λ c, order_buckets (having "sales-channel" c data))).
    apply NoDup_first_seen. }
  split.
  { unfold grouped. apply Forall_fmap, Forall_forall. intros c _. simpl.
    unfold order_buckets, buckets_as.
    rewrite (dict_keys_tabulate
               (λ o, mk_entry (having "order-id" o (having "sales-channel" c data)))).
    apply NoDup_first_seen. }
  intros channel order_id. apply slot_grouped.
Qed.

Lemma grouping_partitions_records_witness :
  ∃ g, group_records [sample_line "Amazon.com" "111" "i1";
                      sample_line "Amazon.ca" "111" "i2";
                      sample_line "Amazon.com" "111" "i3"] = Ok g
     ∧ count_lines g = 3.
Proof.
  destruct (grouping_partitions_records
              [sample_line "Amazon.com" "111" "i1";
               sample_line "Amazon.ca" "111" "i2";
               sample_line "Amazon.com" "111" "i3"]) as (g & Hg & Hn & _).
  - repeat constructor; by vm_compute; eexists.
  - exists g. split; assumption.
Defined.

(** C8. Records that share an order id but report different sales channels
    end up in different channel batches, each batch holding its own order
    under that same order id; neither record is in the other channel's
    order, and no slot holds both. *)
Theorem same_order_id_split_by_channel (data : list record) (r1 r2 : record)
    (order_id c1 c2 : value) :
  groupable data →
  r1 ∈ data → r2 ∈ data →
  r1 !! "order-id" = Some order_id → r2 !! "order-id" = Some order_id →
  r1 !! "sales-channel" = Some c1 → r2 !! "sales-channel" = Some c2 →
  c1 ≠ c2 →
  ∃ g batch1 batch2 e1 e2,
    group_records data = Ok g
    ∧ dict_get c1 g = Some batch1 ∧ dict_get c2 g = Some batch2
    ∧ dict_get order_id batch1 = Some e1 ∧ dict_get order_id batch2 = Some e2
    ∧ r1 ∈ orders e1 ∧ r2 ∈ orders e2
    ∧ (r2 ∉ orders e1) ∧ (r1 ∉ orders e2)
    ∧ ∀ c o, ¬ (r1 ∈ slot c o g ∧ r2 ∈ slot c o g).
Proof.
  intros Hall Hr1 Hr2 Ho1 Ho2 Hc1 Hc2 Hne.
  assert (Hbatch : ∀ (r : record) c, r ∈ data → r !! "sales-channel" = Some c →
            r !! "order-id" = Some order_id →
            dict_get c (grouped data)
              = Some (order_buckets (having "sales-channel" c data))
            ∧ dict_get order_id (order_buckets (having "sales-channel" c data))
              = Some (mk_entry (having "order-id" order_id
                                  (having "sales-channel" c data)))
            ∧ r ∈ having "order-id" order_id (having "sales-channel" c data)).
  { intros r c Hr Hc Ho.
    assert (Hin : r ∈ having "order-id" order_id (having "sales-channel" c data)).
    { unfold having. rewrite !list_elem_of_filter. done. }
    split; [|split; [|done]].
    - unfold grouped.
      rewrite (dict_get_tabulate (λ c, order_buckets (having "sales-channel" c data))).
      rewrite decide_True; [done|].
      apply elem_of_first_seen. unfold column. apply list_elem_of_omap. eauto.
    - unfold order_buckets, buckets_as.
      rewrite (dict_get_tabulate
                 (λ o, mk_entry (having "order-id" o (having "sales-channel" c data)))).
      rewrite decide_True; [done|].
      apply elem_of_first_seen. unfold column. apply list_elem_of_omap.
      exists r. split; [|done]. unfold having. by apply list_elem_of_filter. }
  destruct (Hbatch r1 c1 Hr1 Hc1 Ho1) as (Hg1 & Hb1 & Hin1).
  destruct (Hbatch r2 c2 Hr2 Hc2 Ho2) as (Hg2 & Hb2 & Hin2).
  eexists (grouped data), _, _, _, _.
  split; [by apply group_records_grouped|].
  do 4 (split; [eassumption|]). simpl.
  do 2 (split; [assumption|]).
  split; [|split].
  - unfold having. rewrite !list_elem_of_filter. intros [_ [Hc _]]. congruence.
  - unfold having. rewrite !list_elem_of_filter. intros [_ [Hc _]]. congruence.
  - intros c o. rewrite slot_grouped, !list_elem_of_filter.
    intros [[[Hc _] _] [[Hc' _] _]]. congruence.
Qed.

Lemma same_order_id_split_by_channel_witness :
  ∃ g batch1 batch2 e1 e2,
    group_records [sample_line "Amazon.com" "111" "i1";
                   sample_line "Amazon.ca" "111" "i2"] = Ok g
    ∧ dict_get (VStr "Amazon.com") g = Some batch1
    ∧ dict_get (VStr "Amazon.ca") g = Some batch2
    ∧ dict_get (VStr "111") batch1 = Some e1
    ∧ dict_get (VStr "111") batch2 = Some e2.
Proof.
  destruct (same_order_id_split_by_channel
              [sample_line "Amazon.com" "111" "i1";
               sample_line "Amazon.ca" "111" "i2"]
              (sample_line "Amazon.com" "111" "i1")
              (sample_line "Amazon.ca" "111" "i2")
              (VStr "111") (VStr "Amazon.com") (VStr "Amazon.ca"))
    as (g & b1 & b2 & e1 & e2 & Hg & H1 & H2 & H3 & H4 & _).
  - repeat constructor; by vm_compute; eexists.
  - by left.
  - right. by left.
  - reflexivity.
  - reflexivity.
  - reflexivity.
  - reflexivity.
  - discriminate.
  - exists g, b1, b2, e1, e2. repeat split; assumption.
Defined.

(** ** The report builder *)

Lemma bind_Ok {A B : Type} (m : result A) (f : A → result B) (b : B) :
  m ≫= f = Ok b → ∃ a, m = Ok a ∧ f a = Ok b.
Proof. destruct m as [a|e]; simpl; [eauto | discriminate]. Qed.

Lemma getitem_Ok (r : record) (k : string) (v : value) :
  getitem r k = Ok v ↔ r !! k = Some v.
Proof. unfold getitem. destruct (r !! k); split; congruence. Qed.

(** Peel the successful reads off a builder equation [H : ... = Ok _]. *)
Ltac invert_binds H :=
  repeat (let a := fresh "v" in let Ha := fresh "Hv" in
          apply bind_Ok in H as (a & Ha & H));
  try (injection H as H).

Lemma first_line_Ok (entry : order_entry) (order : record) :
  first_line entry = Ok order → ∃ rest, orders entry = order :: rest.
Proof.
  unfold first_line. destruct (orders entry) as [|o rest]; [discriminate|].
  intros [= ->]. eauto.
Qed.

Lemma build_item_tag (item : record) (it : xml) :
  build_item item = Ok it → tag_of it = "Item".
Proof. unfold build_item. intros H. invert_binds H. by subst. Qed.

Lemma map_each_Forall2 {A B : Type} (f : A → result B) (l : list A) (ys : list B) :
  map_each f l = Ok ys → Forall2 (λ x y, f x = Ok y) l ys.
Proof.
  revert ys. induction l as [|x l IH]; simpl; intros ys H.
  - injection H as <-. constructor.
  - invert_binds H. subst. constructor; [done | by apply IH].
Qed.

Lemma build_items_tag (lines : list record) (items : list xml) :
  map_each build_item lines = Ok items →
  filter (λ c, tag_of c = "Item") items = items.
Proof.
  intros H. apply map_each_Forall2 in H.
  induction H as [|x y l ys Hxy _ IH]; [done|].
  rewrite filter_cons_True by (by eapply build_item_tag). by rewrite IH.
Qed.



Lemma getitem_present (r : record) (k : string) :
  is_Some (r !! k) → ∃ v, getitem r k = Ok v.
Proof. intros [v Hv]. exists v. by apply getitem_Ok. Qed.

Ltac split_fields H :=
  unfold has_fields, order_fields, item_fields in H;
  repeat (let Hk := fresh "Hk" in apply Forall_cons in H as [Hk H]).

(** Replace every read of a present field by its value. *)
Ltac read_fields :=
  repeat match goal with
         | |- context [getitem ?r ?k] =>
             let v := fresh "v" in
             let Hv := fresh "Hv" in
             destruct (getitem_present r k) as [v Hv]; [assumption|];
             rewrite Hv; simpl
         end.

Lemma build_item_complete (item : record) :
  has_fields item_fields item → ∃ it, build_item item = Ok it.
Proof.
  intros H. split_fields H. unfold build_item. read_fields. eauto.
Qed.

Lemma build_items_complete (lines : list record) :
  Forall (has_fields item_fields) lines → ∃ items, map_each build_item lines = Ok items.
Proof.
  induction 1 as [|x l Hx _ [items IH]]; simpl; [eauto|].
  destruct (build_item_complete x Hx) as [it ->]. simpl. rewrite IH. simpl. eauto.
Qed.

Lemma build_message_complete (message_id : nat) (order_id : value)
    (entry : order_entry) (session : string) :
  renderable_entry entry →
  ∃ m, build_message message_id order_id entry session = Ok m.
Proof.
  intros [(first & rest & Hfirst & Hfields) Hitems].
  destruct (build_items_complete _ Hitems) as [items Hi].
  split_fields Hfields. unfold build_message, first_line.
  rewrite Hfirst in Hi |- *. simpl in Hi |- *. read_fields.
  rewrite Hi. simpl. eauto.
Qed.

(** C6. For an order whose first line lacks the optional fields, the
    rendered BuyerPhoneNumber and the fulfillment PhoneNumber are the empty
    string and IsBusinessOrder, IsPrime, IsPremiumOrder and IsIba are the
    lowercase string false; this holds field by field for every message the
    builder returns, and it returns one whenever the order carries its
    required fields. *)
Theorem optional_fields_default (message_id : nat) (order_id : value)
    (entry : order_entry) (session : string) (order : record) (rest : list record) :
  orders entry = order :: rest →
  (∀ m, build_message message_id order_id entry session = Ok m →
     (order !! "buyer-phone-number" = None →
      findtext ["OrderReport"; "BillingData"; "BuyerPhoneNumber"] m = Some (VStr ""))
     ∧ (order !! "ship-phone-number" = None →
        findtext ["OrderReport"; "FulfillmentData"; "Address"; "PhoneNumber"] m
        = Some (VStr ""))
     ∧ (order !! "is-business-order" = None →
        findtext ["OrderReport"; "IsBusinessOrder"] m = Some (VStr "false"))
     ∧ (order !! "is-prime" = None →
        findtext ["OrderReport"; "IsPrime"] m = Some (VStr "false"))
     ∧ (order !! "is-premium-order" = None →
        findtext ["OrderReport"; "IsPremiumOrder"] m = Some (VStr "false"))
     ∧ (order !! "is-iba" = None →
        findtext ["OrderReport"; "IsIba"] m = Some (VStr "false")))
  ∧ (renderable_entry entry →
     ∃ m, build_message message_id order_id entry session = Ok m).
Proof.
  intros Hentry. split; [|apply build_message_complete].
  intros m H. unfold build_message in H. invert_binds H. subst m.
  match goal with
  | Hf : first_line entry = Ok ?o |- _ =>
      unfold first_line in Hf; rewrite Hentry in Hf; injection Hf as <-
  end.
  repeat split; intros Hnone; unfold findtext, flag_text, get_default;
    rewrite Hnone; reflexivity.
Qed.

Lemma optional_fields_default_witness :
  ∃ m, build_message 1 (VStr "111") (mk_entry [sample_line "Amazon.com" "111" "i1"])
         "session" = Ok m
     ∧ findtext ["OrderReport"; "IsPrime"] m = Some (VStr "false")
     ∧ findtext ["OrderReport"; "BillingData"; "BuyerPhoneNumber"] m = Some (VStr "").
Proof.
  destruct (optional_fields_default 1 (VStr "111")
              (mk_entry [sample_line "Amazon.com" "111" "i1"]) "session"
              (sample_line "Amazon.com" "111" "i1") [] eq_refl) as [Htexts Hbuilds].
  destruct Hbuilds as [m Hm].
  - split; [eexists _, _; split; [reflexivity|]|]; repeat constructor;
      by vm_compute; eexists.
  - exists m. split; [exact Hm|].
    destruct (Htexts m Hm) as (Hphone & _ & _ & Hprime & _).
    split; [apply Hprime | apply Hphone]; reflexivity.
Defined.



Lemma for_each_Ok_fields {S : Type} (body : S → record → result S) (k : string)
    (l : list record) (s s' : S) :
  (∀ s r s', body s r = Ok s' → is_Some (r !! k)) →
  for_each body l s = Ok s' → Forall (λ r : record, is_Some (r !! k)) l.
Proof.
  intros Hbody. revert s. induction l as [|x l IH]; intros s H; [constructor|].
  simpl in H. apply bind_Ok in H as (s1 & H1 & H).
  constructor; [by eapply Hbody | by eapply IH].
Qed.

Lemma group_by_order_Ok (rs : list record) (batch : pydict order_entry) :
  group_by_order rs = Ok batch → batch = order_buckets rs.
Proof.
  intros H. assert (Hall : Forall (λ r : record, is_Some (r !! "order-id")) rs).
  { eapply for_each_Ok_fields; [|exact H].
    intros s r s' Hs. unfold order_step in Hs.
    apply bind_Ok in Hs as (v & Hv & _). apply getitem_Ok in Hv. eauto. }
  rewrite (group_by_order_buckets _ Hall) in H. congruence.
Qed.

Lemma group_by_channel_Ok (data : list record) (channels : pydict (list record)) :
  group_by_channel data = Ok channels → channels = buckets "sales-channel" data.
Proof.
  intros H. assert (Hall : Forall (λ r : record, is_Some (r !! "sales-channel")) data).
  { eapply for_each_Ok_fields; [|exact H].
    intros s r s' Hs. unfold channel_step in Hs.
    apply bind_Ok in Hs as (v & Hv & _). apply getitem_Ok in Hv. eauto. }
  rewrite (group_by_channel_buckets _ Hall) in H. congruence.
Qed.

Lemma build_message_header (message_id : nat) (order_id : value)
    (entry : order_entry) (session : string) (m : xml) :
  build_message message_id order_id entry session = Ok m →
  tag_of m = "Message"
  ∧ findtext ["MessageID"] m = Some (VStr (str_of_nat message_id))
  ∧ findtext ["OrderReport"; "AmazonOrderID"] m = Some order_id.
Proof.
  intros H. unfold build_message in H. invert_binds H. subst m. repeat split.
Qed.

Section Messages.
Variable uuid4 : nat → string.

Lemma build_messages_header (batch : pydict order_entry) :
∀ message_id calls msgs,
build_messages uuid4 message_id calls batch = Ok msgs →
filter (λ c, tag_of c = "Message") msgs = msgs
∧ map (findtext ["MessageID"]) msgs
= map (λ i, Some (VStr (str_of_nat i))) (seq message_id (length batch))
∧ map (findtext ["OrderReport"; "AmazonOrderID"]) msgs
= map Some (dict_keys batch).
Proof.
induction batch as [|[order_id entry] batch IH]; intros message_id calls msgs H;
simpl in H.
- injection H as <-. done.
- apply bind_Ok in H as (m & Hm & H). apply bind_Ok in H as (ms & Hms & H).
injection H as <-.
apply build_message_header in Hm as (Htag & Hid & Hoid).
destruct (IH _ _ _ Hms) as (IH1 & IH2 & IH3).
rewrite filter_cons_True by done. simpl.
rewrite IH1, IH2, IH3, Hid, Hoid. done.
Qed.

Lemma build_messages_complete (batch : pydict order_entry) :
renderable batch →
∀ message_id calls, ∃ msgs, build_messages uuid4 message_id calls batch = Ok msgs.
Proof.
induction 1 as [|[order_id entry] batch Hentry _ IH]; intros message_id calls;
simpl; [eauto|].
destruct (build_message_complete message_id order_id entry (uuid4 calls) Hentry)
as [m ->]. simpl.
destruct (IH (S message_id) (S calls)) as [ms ->]. simpl. eauto.
Qed.
End Messages.

(** C2. In the envelope of a channel batch the i-th Message, in document
    order and counting from 1, has the decimal string of i as MessageID and
    reports the i-th distinct order id to appear in the channel's records:
    the order ids follow first appearance, not any sorting; the envelope is
    built whenever every order carries its required fields.  The channels
    likewise are kept, and so processed, in order of first appearance. *)
Theorem messages_numbered_in_first_seen_order (uuid4 : nat → string)
    (calls : nat) (merchant_id : string) :
  (∀ rs batch, group_by_order rs = Ok batch →
     dict_keys batch = first_seen (column "order-id" rs)
     ∧ (∀ env, build_envelope uuid4 calls batch merchant_id = Ok env →
          map (findtext ["MessageID"]) (findall "Message" env)
          = map (λ i, Some (VStr (str_of_nat i)))
                (seq 1 (length (first_seen (column "order-id" rs))))
          ∧ map (findtext ["OrderReport"; "AmazonOrderID"]) (findall "Message" env)
            = map Some (first_seen (column "order-id" rs)))
     ∧ (renderable batch →
        ∃ env, build_envelope uuid4 calls batch merchant_id = Ok env))
  ∧ (∀ data channels, group_by_channel data = Ok channels →
       dict_keys channels = first_seen (column "sales-channel" data)).
Proof.
  split.
  - intros rs batch Hbatch. apply group_by_order_Ok in Hbatch. subst batch.
    assert (Hkeys : dict_keys (order_buckets rs) = first_seen (column "order-id" rs)).
    { unfold order_buckets, buckets_as.
      apply (dict_keys_tabulate (λ o, mk_entry (having "order-id" o rs))). }
    split; [exact Hkeys|]. split.
    + intros env Henv. unfold build_envelope in Henv.
      apply bind_Ok in Henv as (msgs & Hmsgs & Henv). injection Henv as <-.
      apply build_messages_header in Hmsgs as (Htag & Hid & Hoid).
      unfold findall. simpl.
      rewrite !filter_cons_False by (simpl; discriminate).
      rewrite Htag, Hid, Hoid, Hkeys.
      unfold order_buckets, buckets_as. by rewrite length_map.
    + intros Hr. unfold build_envelope.
      destruct (build_messages_complete uuid4 _ Hr 1 calls) as [msgs ->].
      simpl. eauto.
  - intros data channels H. apply group_by_channel_Ok in H. subst channels.
    unfold buckets, buckets_as.
    apply (dict_keys_tabulate (λ c, having "sales-channel" c data)).
Qed.

Lemma messages_numbered_in_first_seen_order_witness :
  ∃ env, build_envelope sample_uuid 0
           (order_buckets [sample_line "Amazon.com" "222" "i1";
                           sample_line "Amazon.com" "111" "i2";
                           sample_line "Amazon.com" "222" "i3"])
           default_merchant_id = Ok env
       ∧ map (findtext ["OrderReport"; "AmazonOrderID"]) (findall "Message" env)
         = [Some (VStr "222"); Some (VStr "111")].
Proof.
  destruct (proj1 (messages_numbered_in_first_seen_order sample_uuid 0
                     default_merchant_id)
              [sample_line "Amazon.com" "222" "i1";
               sample_line "Amazon.com" "111" "i2";
               sample_line "Amazon.com" "222" "i3"]
              (order_buckets [sample_line "Amazon.com" "222" "i1";
                              sample_line "Amazon.com" "111" "i2";
                              sample_line "Amazon.com" "222" "i3"]))
    as (_ & Hmsgs & Hbuilds).
  - by vm_compute.
  - destruct Hbuilds as [env Henv].
    + repeat constructor; try (eexists _, _; split; [reflexivity|]);
        repeat constructor; by vm_compute; eexists.
    + exists env. split; [exact Henv|].
      destruct (Hmsgs env Henv) as [_ Hoid]. rewrite Hoid. by vm_compute.
Defined.

(** ** Rendering twice *)

Lemma xml_induction (P : xml → Prop) :
  (∀ tag attrib text children,
     Forall P children → P (Element tag attrib text children)) →
  ∀ e, P e.
Proof.
  intros Hstep. fix IH 1. intros [tag attrib text children].
  apply Hstep. induction children as [|c cs IHcs]; constructor; [apply IH | exact IHcs].
Qed.

Lemma build_message_mask (message_id : nat) (order_id : value) (entry : order_entry)
    (s1 s2 : string) :
  mask_session <$> build_message message_id order_id entry s1
  = mask_session <$> build_message message_id order_id entry s2.
Proof.
  unfold build_message.
  destruct (first_line entry) as [order|e]; simpl; [|done].
  repeat match goal with
         | |- context [getitem ?r ?k] => destruct (getitem r k); simpl; [|done]
         end.
  destruct (map_each build_item (orders entry)); simpl; [|done].
  reflexivity.
Qed.

Lemma build_messages_mask (u1 u2 : nat → string) (batch : pydict order_entry) :
  ∀ message_id c1 c2,
    map mask_session <$> build_messages u1 message_id c1 batch
    = map mask_session <$> build_messages u2 message_id c2 batch.
Proof.
  induction batch as [|[order_id entry] batch IH]; intros message_id c1 c2; simpl;
    [done|].
  pose proof (build_message_mask message_id order_id entry (u1 c1) (u2 c2)) as Hm.
  destruct (build_message message_id order_id entry (u1 c1)) as [m1|e1],
           (build_message message_id order_id entry (u2 c2)) as [m2|e2];
    simpl in Hm |- *; try discriminate; [|congruence].
  specialize (IH (S message_id) (S c1) (S c2)).
  destruct (build_messages u1 (S message_id) (S c1) batch) as [ms1|e1],
           (build_messages u2 (S message_id) (S c2) batch) as [ms2|e2];
    simpl in IH |- *; try discriminate; [|congruence].
  congruence.
Qed.

Lemma build_envelope_mask (u1 u2 : nat → string) (c1 c2 : nat)
    (batch : pydict order_entry) (merchant_id : string) :
  mask_session <$> build_envelope u1 c1 batch merchant_id
  = mask_session <$> build_envelope u2 c2 batch merchant_id.
Proof.
  unfold build_envelope.
  pose proof (build_messages_mask u1 u2 batch 1 c1 c2) as H.
  destruct (build_messages u1 1 c1 batch) as [ms1|e1],
           (build_messages u2 1 c2 batch) as [ms2|e2];
    simpl in H |- *; try discriminate; [|congruence].
  injection H as H. by rewrite H.
Qed.

(** Masking a string-valued session text changes no outcome of the
    serialiser. *)
Lemma join_results_raised (cs : list xml) :
  Forall (λ c, session_is_str c = true →
               raised (serialize c) = raised (serialize (mask_session c))) cs →
  forallb session_is_str cs = true →
  raised (join_results (map serialize cs))
  = raised (join_results (map serialize (map mask_session cs))).
Proof.
  induction 1 as [|c cs Hc _ IH]; simpl; [done|].
  intros Hall. apply andb_prop in Hall as [Hs Hall].
  specialize (Hc Hs). specialize (IH Hall).
  destruct (serialize c), (serialize (mask_session c)); simpl in Hc |- *;
    try discriminate; [|done].
  destruct (join_results (map serialize cs)),
           (join_results (map serialize (map mask_session cs)));
    simpl in IH |- *; try discriminate; done.
Qed.

Lemma serialize_mask_raised (e : xml) :
  session_is_str e = true →
  raised (serialize e) = raised (serialize (mask_session e)).
Proof.
  induction e as [tag attrib text children IH] using xml_induction.
  intros Hs. simpl in Hs. apply andb_prop in Hs as [Htext Hall].
  pose proof (join_results_raised children IH Hall) as Hjoin.
  simpl. destruct (map_each serialize_attrib attrib) as [attrs|err]; simpl; [|done].
  assert (Hnil : bool_decide (map mask_session children = []) = bool_decide (children = [])).
  { destruct children; done. }
  rewrite Hnil.
  destruct (decide (tag = "AmazonSessionID")) as [->|Hne].
  - destruct text as [s| | | |]; try discriminate. simpl.
    destruct children as [|c cs].
    + simpl. destruct s; done.
    + rewrite orb_true_r. simpl in Hjoin |- *.
      destruct (serialize c ≫= _), (serialize (mask_session c) ≫= _);
        simpl in Hjoin |- *; try discriminate; done.
  - destruct (truthy text || negb (bool_decide (children = []))); [|done].
    destruct (serialize_text text); simpl; [|done].
    destruct (join_results (map serialize children)),
             (join_results (map serialize (map mask_session children)));
      simpl in Hjoin |- *; try discriminate; done.
Qed.

Lemma build_item_session (item : record) (it : xml) :
  build_item item = Ok it → session_is_str it = true.
Proof. unfold build_item. intros H. invert_binds H. by subst. Qed.

Lemma build_items_session (lines : list record) (items : list xml) :
  map_each build_item lines = Ok items → forallb session_is_str items = true.
Proof.
  intros H. apply map_each_Forall2 in H.
  induction H as [|x y l ys Hxy _ IH]; [done|].
  simpl. rewrite IH, (build_item_session _ _ Hxy). done.
Qed.

Lemma build_message_session (message_id : nat) (order_id : value)
    (entry : order_entry) (session : string) (m : xml) :
  build_message message_id order_id entry session = Ok m → session_is_str m = true.
Proof.
  intros H. unfold build_message in H. invert_binds H. subst m.
  match goal with
  | Hi : map_each build_item _ = Ok _ |- _ =>
      apply build_items_session in Hi; simpl; by rewrite Hi
  end.
Qed.

Lemma build_messages_session (uuid4 : nat → string) (batch : pydict order_entry) :
  ∀ message_id calls msgs,
    build_messages uuid4 message_id calls batch = Ok msgs →
    forallb session_is_str msgs = true.
Proof.
  induction batch as [|[order_id entry] batch IH]; intros message_id calls msgs H;
    simpl in H.
  - by injection H as <-.
  - apply bind_Ok in H as (m & Hm & H). apply bind_Ok in H as (ms & Hms & H).
    injection H as <-. simpl.
    by rewrite (build_message_session _ _ _ _ _ Hm), (IH _ _ _ Hms).
Qed.

Lemma build_envelope_session (uuid4 : nat → string) (calls : nat)
    (batch : pydict order_entry) (merchant_id : string) (env : xml) :
  build_envelope uuid4 calls batch merchant_id = Ok env → session_is_str env = true.
Proof.
  unfold build_envelope. intros H.
  apply bind_Ok in H as (msgs & Hmsgs & H). injection H as <-.
  apply build_messages_session in Hmsgs. simpl. by rewrite Hmsgs.
Qed.

Lemma generate_masked_raised (uuid4 : nat → string) (calls : nat)
    (batch : pydict order_entry) (merchant_id : string) :
  raised (generate_amazon_xml uuid4 calls batch merchant_id)
  = raised (generate_masked_xml uuid4 calls batch merchant_id).
Proof.
  unfold generate_amazon_xml, generate_masked_xml.
  destruct (build_envelope uuid4 calls batch merchant_id) as [env|e] eqn:Henv;
    simpl; [|done].
  apply serialize_mask_raised. by eapply build_envelope_session.
Qed.

Lemma generate_masked_same (u1 u2 : nat → string) (c1 c2 : nat)
    (batch : pydict order_entry) (merchant_id : string) :
  generate_masked_xml u1 c1 batch merchant_id
  = generate_masked_xml u2 c2 batch merchant_id.
Proof.
  unfold generate_masked_xml.
  pose proof (build_envelope_mask u1 u2 c1 c2 batch merchant_id) as H.
  destruct (build_envelope u1 c1 batch merchant_id) as [e1|x1],
           (build_envelope u2 c2 batch merchant_id) as [e2|x2];
    simpl in H |- *; try discriminate; [|congruence].
  injection H as H. by rewrite H.
Qed.

(** C9. Rendering is deterministic up to the session id: for a fixed batch
    and merchant identifier, two invocations of the generator, whatever
    session ids they draw, give the same compact XML once the texts of the
    AmazonSessionID elements are left out; they also end alike, both with
    output or both with the same exception, and whenever one returns output
    the masked rendering exists. *)
Theorem rendering_deterministic_up_to_session (u1 u2 : nat → string) (c1 c2 : nat)
    (batch : pydict order_entry) (merchant_id : string) :
  generate_masked_xml u1 c1 batch merchant_id
  = generate_masked_xml u2 c2 batch merchant_id
  ∧ raised (generate_amazon_xml u1 c1 batch merchant_id)
    = raised (generate_amazon_xml u2 c2 batch merchant_id)
  ∧ (∀ b1, generate_amazon_xml u1 c1 batch merchant_id = Ok b1 →
       ∃ b2 b, generate_amazon_xml u2 c2 batch merchant_id = Ok b2
             ∧ generate_masked_xml u1 c1 batch merchant_id = Ok b
             ∧ generate_masked_xml u2 c2 batch merchant_id = Ok b).
Proof.
  pose proof (generate_masked_same u1 u2 c1 c2 batch merchant_id) as Hsame.
  pose proof (generate_masked_raised u1 c1 batch merchant_id) as H1.
  pose proof (generate_masked_raised u2 c2 batch merchant_id) as H2.
  split; [exact Hsame|]. split; [congruence|].
  intros b1 Hb1. rewrite Hb1 in H1. rewrite <- Hsame in H2.
  destruct (generate_masked_xml u1 c1 batch merchant_id) as [b|e];
    [|discriminate].
  destruct (generate_amazon_xml u2 c2 batch merchant_id) as [b2|e];
    [|discriminate].
  exists b2, b. by rewrite <- Hsame.
Qed.

(** ** Missing fields *)

Lemma getitem_cases (r : record) (k : string) :
  (∃ v, getitem r k = Ok v) ∨ getitem r k = Err (KeyError k).
Proof. unfold getitem. destruct (r !! k); eauto. Qed.

(** Follow the reads one by one; a failing read ends in a [KeyError]. *)
Ltac step_reads :=
  repeat match goal with
         | |- context [getitem ?r ?k] =>
             let v := fresh "v" in
             let Hv := fresh "Hv" in
             destruct (getitem_cases r k) as [[v Hv]|Hv]; rewrite Hv; simpl;
             [|by right; eexists]
         end.

Lemma build_item_cases (item : record) :
  (∃ it, build_item item = Ok it) ∨ (∃ k, build_item item = Err (KeyError k)).
Proof. unfold build_item. step_reads. eauto. Qed.

Lemma build_items_cases (lines : list record) :
  (∃ items, map_each build_item lines = Ok items)
  ∨ (∃ k, map_each build_item lines = Err (KeyError k)).
Proof.
  induction lines as [|x l IH]; simpl; [eauto|].
  destruct (build_item_cases x) as [[it ->]|[k ->]]; simpl; [|eauto].
  destruct IH as [[items ->]|[k ->]]; simpl; eauto.
Qed.

Lemma build_message_cases (message_id : nat) (order_id : value)
    (entry : order_entry) (session : string) :
  orders entry ≠ [] →
  (∃ m, build_message message_id order_id entry session = Ok m)
  ∨ (∃ k, build_message message_id order_id entry session = Err (KeyError k)).
Proof.
  intros Hne. unfold build_message, first_line.
  pose proof (build_items_cases (orders entry)) as Hi.
  set (built := map_each build_item (orders entry)) in *. clearbody built.
  destruct (orders entry) as [|first rest]; [done|]. simpl. step_reads.
  destruct Hi as [[items ->]|[k ->]]; simpl; eauto.
Qed.




Lemma having_present (k : string) (v : value) (data : list record) :
  v ∈ column k data → having k v data ≠ [].
Proof.
  unfold column, having. rewrite list_elem_of_omap. intros (r & Hr & Hk) Hnil.
  assert (Hin : r ∈ filter (λ r : record, r !! k = Some v) data)
    by (by apply list_elem_of_filter).
  rewrite Hnil in Hin. by apply elem_of_nil in Hin.
Qed.



Section RunLoop.
Variable uuid4 : nat → string.
Variable toprettyxml : string → result string.

Lemma process_channels_app (before after : pydict (list record)) :
∀ w counter,
process_channels uuid4 toprettyxml (before ++ after) w counter
= match process_channels uuid4 toprettyxml before w counter with
| (w', Ok counter') => process_channels uuid4 toprettyxml after w' counter'
| (w', Err e) => (w', Err e)
end.
Proof.
induction before as [|[channel_name rs] before IH]; intros w counter; simpl;
[done|].
destruct (group_by_order rs) as [g|e]; [|done].
destruct (generate_amazon_xml uuid4 (uuid_calls w) g default_merchant_id)
as [xml_report|e]; [|done].
destruct (save_xml_to_out_directory _ _ _ _ _) as [fs [[]|e]]; [apply IH | done].
Qed.
End RunLoop.




(** ** The record parser *)

Lemma foldl_insert_notin (l : list (string * string)) (k : string) :
  ∀ m : record,
    k ∉ l.*1 →
    foldl (λ (d : record) (kv : string * string), <[kv.1 := VStr kv.2]> d) m l !! k
    = m !! k.
Proof.
  induction l as [|[k' s'] l IH]; intros m Hk; simpl; [done|].
  simpl in Hk. apply not_elem_of_cons in Hk as [Hne Hk].
  rewrite IH by done. by rewrite lookup_insert_ne.
Qed.

Lemma foldl_insert_NoDup (l : list (string * string)) (k s : string) :
  ∀ m : record,
    NoDup l.*1 → (k, s) ∈ l →
    foldl (λ (d : record) (kv : string * string), <[kv.1 := VStr kv.2]> d) m l !! k
    = Some (VStr s).
Proof.
  induction l as [|[k' s'] l IH]; intros m Hnd Hin; [by apply elem_of_nil in Hin|].
  simpl in Hnd |- *. apply NoDup_cons in Hnd as [Hk' Hnd].
  apply elem_of_cons in Hin as [[= -> ->]|Hin].
  - rewrite foldl_insert_notin by done. by rewrite lookup_insert_eq.
  - by apply IH.
Qed.

Lemma foldl_insert_inv (l : list (string * string)) (k : string) (v : value) :
  ∀ m : record,
    foldl (λ (d : record) (kv : string * string), <[kv.1 := VStr kv.2]> d) m l !! k
    = Some v →
    m !! k = Some v ∨ ∃ s, (k, s) ∈ l ∧ v = VStr s.
Proof.
  induction l as [|[k' s'] l IH]; intros m H; simpl in H; [by left|].
  destruct (IH _ H) as [Hm|(s & Hs & ->)].
  - destruct (decide (k' = k)) as [->|Hne].
    + rewrite lookup_insert_eq in Hm. injection Hm as <-.
      right. exists s'. split; [by left | done].
    + rewrite lookup_insert_ne in Hm by done. by left.
  - right. exists s. split; [by right | done].
Qed.

Lemma dict_zip_cell (fieldnames row : list string) (k : string) (v : value) :
  dict_zip fieldnames row !! k = Some v →
  ∃ i s, fieldnames !! i = Some k ∧ row !! i = Some s ∧ v = VStr s.
Proof.
  unfold dict_zip. intros H. apply foldl_insert_inv in H as [H|(s & Hs & ->)].
  - by rewrite lookup_empty in H.
  - apply elem_of_lookup_zip_with_1 in Hs as (i & x & y & [= -> ->] & Hx & Hy).
    eauto.
Qed.

Lemma dict_zip_NoDup (fieldnames row : list string) (i : nat) (k s : string) :
  length row = length fieldnames → NoDup fieldnames →
  fieldnames !! i = Some k → row !! i = Some s →
  dict_zip fieldnames row !! k = Some (VStr s).
Proof.
  intros Hlen Hnd Hk Hs. unfold dict_zip. apply foldl_insert_NoDup.
  - rewrite fst_zip by lia. done.
  - by apply (elem_of_lookup_zip_with_2 pair fieldnames row k s (k, s) i).
Qed.

Section ParserFacts.
Variable csv_reader : string → list (list string).
Variable fromisoformat : string → result datetime.

Lemma well_formed_row_nonempty (fieldnames row : list string) :
well_formed_row fromisoformat fieldnames row → row ≠ [].
Proof.
intros [_ (s & d & Hs & _)] ->.
apply dict_zip_cell in Hs as (i & s' & _ & Hrow & _). by destruct i.
Qed.

Lemma dict_row_well_formed (fieldnames row : list string) :
well_formed_row fromisoformat fieldnames row →
dict_row fieldnames row = (dict_zip fieldnames row, None).
Proof.
intros [Hlen _]. unfold dict_row. rewrite Hlen.
by rewrite Nat.ltb_irrefl.
Qed.

Lemma parse_row_Ok (row : record * option (list string)) (s : string) (d : datetime) :
row.1 !! "purchase-date" = Some (VStr s) →
fromisoformat s = Ok d →
parse_row fromisoformat row = Ok (<["order_date" := VDate d]> row.1, row.2).
Proof.
intros Hs Hd. unfold parse_row, getitem. rewrite Hs. simpl. by rewrite Hd.
Qed.

Lemma parse_rows_well_formed (fieldnames : list string) (rows : list (list string)) :
Forall (well_formed_row fromisoformat fieldnames) rows →
∃ objects,
map_each (parse_row fromisoformat)
         (map (dict_row fieldnames) (filter (λ row, row ≠ []) rows))
= Ok objects
∧ Forall2 (λ row (obj : record * option (list string)),
             obj.2 = None
             ∧ (∃ s d, dict_zip fieldnames row !! "purchase-date" = Some (VStr s)
                       ∧ fromisoformat s = Ok d
                       ∧ obj.1 !! "order_date" = Some (VDate d))
             ∧ (∀ k, k ≠ "order_date" →
                     obj.1 !! k = dict_zip fieldnames row !! k)
             ∧ (∀ k v, dict_zip fieldnames row !! k = Some v →
                       ∃ i s, fieldnames !! i = Some k ∧ row !! i = Some s
                              ∧ v = VStr s)
             ∧ (NoDup fieldnames →
                ∀ i k s, fieldnames !! i = Some k → row !! i = Some s →
                         k ≠ "order_date" → obj.1 !! k = Some (VStr s)))
          rows objects.
Proof.
induction 1 as [|row rows Hrow _ (objects & Hobjs & Hall)].
- exists []. split; [done | constructor].
- rewrite filter_cons_True by (by eapply well_formed_row_nonempty).
simpl. rewrite (dict_row_well_formed _ _ Hrow).
destruct Hrow as [Hlen (s & d & Hs & Hd)].
rewrite (parse_row_Ok (dict_zip fieldnames row, None) s d Hs Hd). simpl.
rewrite Hobjs. simpl. eexists. split; [reflexivity|].
constructor; [|exact Hall]. simpl. split; [done|].
split; [|split; [|split]].
+ exists s, d. by rewrite lookup_insert_eq.
+ intros k Hk. by rewrite lookup_insert_ne.
+ apply dict_zip_cell.
+ intros Hnd i k s' Hk Hs' Hne. rewrite lookup_insert_ne by done.
  by eapply dict_zip_NoDup.
Qed.
End ParserFacts.

(** C7. For a well-formed table, a header row and data rows that each have
    as many cells as the header and a purchase-date cell the date parser
    accepts, the parser returns one record per data row, in row order; each
    record's order_date is the parsed purchase-date, every other field is
    the one of the row, and those are the cells of the row as unmodified
    strings. *)
Theorem parser_one_record_per_row (csv_reader : string → list (list string))
    (fromisoformat : string → result datetime) (file : string)
    (fieldnames : list string) (rows : list (list string)) :
  csv_reader file = fieldnames :: rows →
  Forall (well_formed_row fromisoformat fieldnames) rows →
  ∃ objects,
    parse_txt_to_objects csv_reader fromisoformat file = Ok objects
    ∧ length objects = length rows
    ∧ Forall2 (λ row (obj : record * option (list string)),
                 obj.2 = None
                 ∧ (∃ s d, dict_zip fieldnames row !! "purchase-date" = Some (VStr s)
                           ∧ fromisoformat s = Ok d
                           ∧ obj.1 !! "order_date" = Some (VDate d))
                 ∧ (∀ k, k ≠ "order_date" →
                         obj.1 !! k = dict_zip fieldnames row !! k)
                 ∧ (∀ k v, dict_zip fieldnames row !! k = Some v →
                           ∃ i s, fieldnames !! i = Some k ∧ row !! i = Some s
                                  ∧ v = VStr s)
                 ∧ (NoDup fieldnames →
                    ∀ i k s, fieldnames !! i = Some k → row !! i = Some s →
                             k ≠ "order_date" → obj.1 !! k = Some (VStr s)))
              rows objects.
Proof.
  intros Hfile Hrows.
  destruct (parse_rows_well_formed fromisoformat fieldnames rows Hrows)
    as (objects & Hobjs & Hall).
  exists objects. unfold parse_txt_to_objects, DictReader. rewrite Hfile.
  split; [exact Hobjs|]. split; [symmetry; by eapply Forall2_length|].
  exact Hall.
Qed.

Lemma parser_one_record_per_row_witness :
  ∃ objects,
    parse_txt_to_objects plain_reader sample_fromisoformat sample_file = Ok objects
    ∧ length objects = 2.
Proof.
  destruct (parser_one_record_per_row plain_reader sample_fromisoformat sample_file
              ["order-id"; "purchase-date"]
              [["111"; "2024-12-24T10:00:00"]; ["222"; "2024-12-25T11:30:00"]])
    as (objects & Hobjs & Hlen & _).
  - by vm_compute.
  - repeat constructor; eexists _, _; split; by vm_compute.
  - exists objects. split; assumption.
Defined.

(** ** The store query *)

Lemma lex_ltb_irrefl (a : list N) : lex_ltb a a = false.
Proof.
  induction a as [|x a IH]; simpl; [done|].
  rewrite N.ltb_irrefl, N.eqb_refl, IH. done.
Qed.

Lemma query_matches (doc : record) :
  forallb (λ kc : string * condition, condition_matches (doc !! kc.1) kc.2) query
  = true
  ↔ (∃ d, doc !! "order_date" = Some (VDate d)
          ∧ datetime_ltb start_date d = true ∧ datetime_ltb d end_date = true)
    ∧ doc !! "is-buyer-requested-cancellation" = Some (VStr "false").
Proof.
  unfold query. simpl. rewrite !andb_true_r, andb_true_iff, andb_true_iff.
  rewrite bool_decide_eq_true. unfold op_matches. simpl.
  destruct (doc !! "order_date") as [[| | |d|]|]; split;
    try (intros [[? ?] ?]; discriminate);
    try (intros [(d' & Hd & _) _]; discriminate).
  - intros [[H1 H2] H3]. eauto.
  - intros [(d' & [= <-] & H1 & H2) H3]. done.
Qed.

(** C3, as the code has it. The query returns exactly the stored records
    whose order_date is a date strictly after the start instant and strictly
    before the end instant, both instants excluded, and whose
    is-buyer-requested-cancellation field equals the string false; a record
    dated at the start or at the end instant is never returned. *)
Theorem query_selects_strictly_between (col : list record) (doc : record) :
  (doc ∈ query_mongodb col
   ↔ doc ∈ col
     ∧ (∃ d, doc !! "order_date" = Some (VDate d)
             ∧ datetime_ltb start_date d = true ∧ datetime_ltb d end_date = true)
     ∧ doc !! "is-buyer-requested-cancellation" = Some (VStr "false"))
  ∧ (doc !! "order_date" = Some (VDate start_date) → doc ∉ query_mongodb col)
  ∧ (doc !! "order_date" = Some (VDate end_date) → doc ∉ query_mongodb col).
Proof.
  assert (Hiff : doc ∈ query_mongodb col
   ↔ doc ∈ col
     ∧ (∃ d, doc !! "order_date" = Some (VDate d)
             ∧ datetime_ltb start_date d = true ∧ datetime_ltb d end_date = true)
     ∧ doc !! "is-buyer-requested-cancellation" = Some (VStr "false")).
  { unfold query_mongodb, collection_find.
    rewrite list_elem_of_filter, query_matches. tauto. }
  split; [exact Hiff|].
  split; intros Hdate Hin; apply Hiff in Hin as (_ & (d & Hd & H1 & H2) & _);
    rewrite Hdate in Hd; injection Hd as <-; unfold datetime_ltb in *;
    rewrite lex_ltb_irrefl in *; discriminate.
Qed.

(** C3, as the specification states it, fails: the order dated at the start
    instant, not cancelled, is selected by an inclusive-exclusive range and
    is not returned by the query. *)
Lemma start_instant_not_returned :
  spec_selected order_at_start = true ∧ query_mongodb [order_at_start] = [].
Proof. split; by vm_compute. Qed.

(** Two renderings of one batch with different session ids: both return
    output, and with the session texts masked it is the same. *)
Lemma rendering_deterministic_up_to_session_witness :
  ∃ b2 b,
    generate_amazon_xml (λ n, "other-" +:+ str_of_nat n) 7
      (order_buckets [sample_line "Amazon.com" "111" "i1"]) default_merchant_id
    = Ok b2
    ∧ generate_masked_xml sample_uuid 0
        (order_buckets [sample_line "Amazon.com" "111" "i1"]) default_merchant_id
      = Ok b.
Proof.
  destruct (rendering_deterministic_up_to_session sample_uuid
              (λ n, "other-" +:+ str_of_nat n) 0 7
              (order_buckets [sample_line "Amazon.com" "111" "i1"])
              default_merchant_id) as (_ & _ & Hout).
  destruct (Hout _ eq_refl) as (b2 & b & H2 & H1 & _).
  exists b2, b. split; assumption.
Defined.

(** * Further properties *)

(** ** Which exception the builder raises *)

Lemma getitem_None (r : record) (k : string) :
  r !! k = None → getitem r k = Err (KeyError k).
Proof. unfold getitem. by intros ->. Qed.

Lemma getitem_Some (r : record) (k : string) (v : value) :
  r !! k = Some v → getitem r k = Ok v.
Proof. unfold getitem. by intros ->. Qed.

(** Decide the reads in order: a held key is read, the first missing one
    raises. *)
Ltac decide_reads r :=
  repeat match goal with
         | |- context [r !! ?k] =>
             let v := fresh "v" in
             let Hv := fresh "Hv" in
             destruct (r !! k) as [v|] eqn:Hv;
             [ rewrite ?(getitem_Some r k v Hv); simpl
             | rewrite ?(getitem_None r k Hv); simpl; try reflexivity ]
         end.

(** X1. [build_item] fails exactly when the line lacks one of the item
    fields, and the KeyError then names the first missing one in reading
    order; otherwise it returns an Item. *)
Theorem build_item_outcome (item : record) :
  match first_missing item_fields item with
  | Some k => build_item item = Err (KeyError k)
  | None => ∃ it, build_item item = Ok it
  end.
Proof.
  unfold build_item, item_fields, first_missing.
  decide_reads item. eauto.
Qed.

(** X2. The outcome of [build_message], case by case: an order without
    lines raises IndexError; otherwise the first order-level field missing
    from the first line, in reading order, raises the KeyError of that
    name; otherwise the first failing line item decides; the optional
    fields never make it fail. *)
Theorem build_message_outcome (message_id : nat) (order_id : value)
    (entry : order_entry) (session : string) :
  match orders entry with
  | [] => build_message message_id order_id entry session = Err IndexError
  | first :: _ =>
      match first_missing order_fields first with
      | Some k =>
          build_message message_id order_id entry session = Err (KeyError k)
      | None =>
          match map_each build_item (orders entry) with
          | Err e => build_message message_id order_id entry session = Err e
          | Ok _ => ∃ m, build_message message_id order_id entry session = Ok m
          end
      end
  end.
Proof.
  unfold build_message, first_line.
  set (built := map_each build_item (orders entry)). clearbody built.
  destruct (orders entry) as [|first rest]; [done|]. simpl.
  unfold order_fields, first_missing.
  decide_reads first. destruct built; simpl; eauto.
Qed.

(** ** First line wins *)

Lemma build_item_agree (r1 r2 : record) :
  agree_on item_fields r1 r2 → build_item r1 = build_item r2.
Proof.
  intros H. unfold agree_on, item_fields in H.
  repeat (let Hk := fresh "Hk" in apply Forall_cons in H as [Hk H]).
  unfold build_item, getitem.
  repeat match goal with Hk : r1 !! _ = r2 !! _ |- _ => rewrite Hk; clear Hk end.
  done.
Qed.

Lemma build_items_agree (l1 l2 : list record) :
  Forall2 (agree_on item_fields) l1 l2 →
  map_each build_item l1 = map_each build_item l2.
Proof.
  induction 1 as [|r1 r2 l1 l2 Hr _ IH]; simpl; [done|].
  by rewrite (build_item_agree _ _ Hr), IH.
Qed.

(** X3. First line wins: the message of an order depends on the lines
    after the first only through their item fields.  Two orders whose first
    lines agree on the order-level, optional and item fields, and whose
    further lines agree on the item fields, render alike, whatever
    order-level values the further lines carry. *)
Theorem first_line_wins (message_id : nat) (order_id : value)
    (e1 e2 : order_entry) (session : string)
    (first1 first2 : record) (rest1 rest2 : list record) :
  orders e1 = first1 :: rest1 →
  orders e2 = first2 :: rest2 →
  agree_on (order_fields ++ optional_fields ++ item_fields) first1 first2 →
  Forall2 (agree_on item_fields) rest1 rest2 →
  build_message message_id order_id e1 session
  = build_message message_id order_id e2 session.
Proof.
  intros H1 H2 Hfirst Hrest.
  assert (Hitems : map_each build_item (orders e1) = map_each build_item (orders e2)).
  { rewrite H1, H2. apply build_items_agree. constructor; [|done].
    unfold agree_on in *. rewrite !Forall_app in Hfirst. tauto. }
  unfold build_message, first_line, flag_text, get_default.
  rewrite Hitems. clear Hitems. rewrite H1, H2. simpl.
  unfold agree_on, order_fields, optional_fields in Hfirst.
  simpl in Hfirst.
  repeat (let Hk := fresh "Hk" in apply Forall_cons in Hfirst as [Hk Hfirst]).
  unfold getitem.
  repeat match goal with
         | Hk : first1 !! _ = first2 !! _ |- _ => rewrite Hk; clear Hk
         end.
  done.
Qed.

Lemma first_line_wins_witness :
  build_message 1 (VStr "111")
    (mk_entry [ sample_line "Amazon.com" "111" "i1";
                sample_line "Amazon.com" "111" "i2" ]) "session"
  = build_message 1 (VStr "111")
      (mk_entry [ sample_line "Amazon.com" "111" "i1";
                  <["buyer-email" := VStr "other@b.c"]>
                    (delete "bill-city" (sample_line "Amazon.com" "111" "i2")) ])
      "session".
Proof.
  apply (first_line_wins 1 (VStr "111") _ _ "session"
           (sample_line "Amazon.com" "111" "i1")
           (sample_line "Amazon.com" "111" "i1")
           [sample_line "Amazon.com" "111" "i2"]
           [<["buyer-email" := VStr "other@b.c"]>
              (delete "bill-city" (sample_line "Amazon.com" "111" "i2"))]).
  - reflexivity.
  - reflexivity.
  - unfold agree_on. apply Forall_forall. done.
  - repeat constructor.
Defined.

(** ** Message and session ids *)

Lemma to_uint_nonnil (n : nat) : Nat.to_uint n ≠ Decimal.Nil.
Proof.
  rewrite <- (DecimalNat.Unsigned.of_to n) at 1.
  rewrite DecimalNat.Unsigned.to_of. apply DecimalFacts.unorm_nonnil.
Qed.

Lemma str_of_nat_inj (a b : nat) : str_of_nat a = str_of_nat b → a = b.
Proof.
  unfold str_of_nat. intros H.
  apply DecimalNat.Unsigned.to_uint_inj.
  assert (Hs : Some (Nat.to_uint a) = Some (Nat.to_uint b)).
  { rewrite <- (NilZero.usu _ (to_uint_nonnil a)), <- (NilZero.usu _ (to_uint_nonnil b)).
    by rewrite H. }
  by injection Hs.
Qed.

Lemma build_message_session_text (message_id : nat) (order_id : value)
    (entry : order_entry) (session : string) (m : xml) :
  build_message message_id order_id entry session = Ok m →
  findtext ["OrderReport"; "AmazonSessionID"] m = Some (VStr session).
Proof.
  intros H. unfold build_message in H. invert_binds H. by subst m.
Qed.

Lemma build_messages_session_texts (uuid4 : nat → string) (batch : pydict order_entry) :
  ∀ message_id calls msgs,
    build_messages uuid4 message_id calls batch = Ok msgs →
    map (findtext ["OrderReport"; "AmazonSessionID"]) msgs
    = map (λ i, Some (VStr (uuid4 i))) (seq calls (length batch)).
Proof.
  induction batch as [|[order_id entry] batch IH]; intros message_id calls msgs H;
    simpl in H.
  - by injection H as <-.
  - apply bind_Ok in H as (m & Hm & H). apply bind_Ok in H as (ms & Hms & H).
    injection H as <-. simpl.
    by rewrite (build_message_session_text _ _ _ _ _ Hm), (IH _ _ _ Hms).
Qed.

(** X4. One uuid per message: the i-th Message of an envelope carries, as
    its AmazonSessionID, the draw number [calls + i - 1] of the uuid source,
    so an envelope of n orders uses n draws in message order.  When the
    source never repeats a value, the session ids of an envelope are pairwise
    distinct; the MessageID texts always are. *)
Theorem one_session_id_per_message (uuid4 : nat → string) (calls : nat)
    (batch : pydict order_entry) (merchant_id : string) (env : xml) :
  build_envelope uuid4 calls batch merchant_id = Ok env →
  length (findall "Message" env) = length batch
  ∧ map (findtext ["OrderReport"; "AmazonSessionID"]) (findall "Message" env)
    = map (λ i, Some (VStr (uuid4 i))) (seq calls (length batch))
  ∧ ((∀ i j, uuid4 i = uuid4 j → i = j) →
     NoDup (map (findtext ["OrderReport"; "AmazonSessionID"]) (findall "Message" env)))
  ∧ NoDup (map (findtext ["MessageID"]) (findall "Message" env)).
Proof.
  intros Henv. unfold build_envelope in Henv.
  apply bind_Ok in Henv as (msgs & Hmsgs & Henv). injection Henv as <-.
  pose proof (build_messages_session_texts _ _ _ _ _ Hmsgs) as Hsess.
  apply build_messages_header in Hmsgs as (Htag & Hid & _).
  unfold findall. simpl.
  rewrite !filter_cons_False by (simpl; discriminate).
  rewrite Htag, Hsess, Hid.
  split; [|split; [done|split]].
  - rewrite <- (length_map (findtext ["MessageID"]) msgs), Hid.
    by rewrite length_map, length_seq.
  - intros Hinj. apply NoDup_fmap_2; [|apply NoDup_seq].
    intros i j [= Hij]. by apply Hinj.
  - apply NoDup_fmap_2; [|apply NoDup_seq].
    intros i j [= Hij]. by apply str_of_nat_inj.
Qed.

Lemma one_session_id_per_message_witness :
  ∃ env,
    build_envelope sample_uuid 5
      (order_buckets [sample_line "Amazon.com" "222" "i1";
                      sample_line "Amazon.com" "111" "i2"])
      default_merchant_id = Ok env
    ∧ map (findtext ["OrderReport"; "AmazonSessionID"]) (findall "Message" env)
      = [Some (VStr "uuid-5"); Some (VStr "uuid-6")].
Proof.
  eexists. split; [by vm_compute|].
  refine (proj1 (proj2 (one_session_id_per_message sample_uuid 5
                          (order_buckets [sample_line "Amazon.com" "222" "i1";
                                          sample_line "Amazon.com" "111" "i2"])
                          default_merchant_id _ _))).
  by vm_compute.
Defined.

(** ** What the generator can raise *)

Lemma bind_Ok_l {A B : Type} (a : A) (f : A → result B) : Ok a ≫= f = f a.
Proof. reflexivity. Qed.

Lemma serialize_attribs_cases (attrib : list (string * value)) :
  (∃ attrs, map_each serialize_attrib attrib = Ok attrs)
  ∨ map_each serialize_attrib attrib = Err TypeError.
Proof.
  induction attrib as [|[k v] attrib IH]; simpl; [eauto|].
  assert (Hone : (∃ s, serialize_attrib (k, v) = Ok s)
                 ∨ serialize_attrib (k, v) = Err TypeError)
    by (unfold serialize_attrib; destruct v; simpl; eauto).
  destruct Hone as [[s ->]| ->]; simpl; [|by right].
  destruct IH as [[attrs ->]| ->]; simpl; eauto.
Qed.

Lemma serialize_cases (e : xml) :
  (∃ s, serialize e = Ok s) ∨ serialize e = Err TypeError.
Proof.
  induction e as [tag attrib text children IH] using xml_induction. simpl.
  destruct (serialize_attribs_cases attrib) as [[attrs ->]| ->]; simpl; [|by right].
  destruct (truthy text || negb (bool_decide (children = []))); [|eauto].
  assert (Hjoin : (∃ s, join_results (map serialize children) = Ok s)
                  ∨ join_results (map serialize children) = Err TypeError).
  { clear -IH. induction IH as [|c cs Hc _ IHcs]; simpl; [eauto|].
    destruct Hc as [[s ->]| ->]; simpl; [|by right].
    destruct IHcs as [[t ->]| ->]; simpl; eauto. }
  destruct text as [s| |[]|d|hex]; simpl; try (by right);
    destruct Hjoin as [[t ->]| ->]; simpl; eauto.
Qed.

Lemma build_messages_cases (uuid4 : nat → string) (batch : pydict order_entry) :
  Forall (λ kv, orders kv.2 ≠ []) batch →
  ∀ message_id calls,
    (∃ msgs, build_messages uuid4 message_id calls batch = Ok msgs)
    ∨ (∃ k, build_messages uuid4 message_id calls batch = Err (KeyError k)).
Proof.
  induction 1 as [|[order_id entry] batch Hne _ IH]; intros message_id calls;
    simpl; [eauto|].
  destruct (build_message_cases message_id order_id entry (uuid4 calls) Hne)
    as [[m ->]|[k ->]]; simpl; [|eauto].
  destruct (IH (S message_id) (S calls)) as [[ms ->]|[k ->]]; simpl; eauto.
Qed.

(** X5. Every order the order grouping makes has at least one line, and
    each of its lines carries the order id it is filed under; so on a
    grouped batch the generator never raises IndexError: it returns the XML,
    or raises a KeyError (a missing field) or a TypeError (a value that
    cannot be serialised). *)
Theorem grouped_batch_never_index_error (rs : list record)
    (batch : pydict order_entry) :
  group_by_order rs = Ok batch →
  Forall (λ kv, orders kv.2 ≠ []
                ∧ Forall (λ r : record, r !! "order-id" = Some kv.1) (orders kv.2))
         batch
  ∧ ∀ (uuid4 : nat → string) calls merchant_id,
      (∃ xml_data, generate_amazon_xml uuid4 calls batch merchant_id = Ok xml_data)
      ∨ (∃ k, generate_amazon_xml uuid4 calls batch merchant_id = Err (KeyError k))
      ∨ generate_amazon_xml uuid4 calls batch merchant_id = Err TypeError.
Proof.
  intros Hbatch. apply group_by_order_Ok in Hbatch. subst batch.
  assert (Hlines : Forall (λ kv : value * order_entry,
             orders kv.2 ≠ []
             ∧ Forall (λ r : record, r !! "order-id" = Some kv.1) (orders kv.2))
            (order_buckets rs)).
  { unfold order_buckets, buckets_as. apply Forall_fmap, Forall_forall.
    intros o Ho. simpl. split.
    - apply having_present. by apply elem_of_first_seen.
    - unfold having. apply Forall_forall. intros r Hr.
      by apply list_elem_of_filter in Hr as [Hr _]. }
  split; [exact Hlines|].
  intros uuid4 calls merchant_id. unfold generate_amazon_xml, build_envelope.
  destruct (build_messages_cases uuid4 (order_buckets rs)) with (message_id := 1)
    (calls := calls) as [[msgs ->]|[k ->]].
  - eapply Forall_impl; [exact Hlines | by intros kv [? _]].
  - rewrite !bind_Ok_l.
    match goal with
    | |- context [serialize ?e] => destruct (serialize_cases e) as [[s Hs]|Hs]
    end.
    + left. eauto.
    + right. right. exact Hs.
  - right. left. eauto.
Qed.

Lemma grouped_batch_never_index_error_witness :
  ∃ xml_data,
    generate_amazon_xml sample_uuid 0
      (order_buckets [sample_line "Amazon.com" "111" "i1"]) default_merchant_id
    = Ok xml_data.
Proof.
  destruct (proj2 (grouped_batch_never_index_error
                     [sample_line "Amazon.com" "111" "i1"]
                     (order_buckets [sample_line "Amazon.com" "111" "i1"])
                     eq_refl) sample_uuid 0 default_merchant_id)
    as [Hok|[[k Hk]|Hty]].
  - exact Hok.
  - exfalso. vm_compute in Hk. discriminate.
  - exfalso. vm_compute in Hty. discriminate.
Defined.

(** ** Records without a grouping key *)

Lemma for_each_missing_key {S : Type} (body : S → record → result S) (k : string)
    (l : list record) :
  (∀ s r, r !! k = None → body s r = Err (KeyError k)) →
  (∀ s r, is_Some (r !! k) → ∃ s', body s r = Ok s') →
  Exists (λ r : record, r !! k = None) l →
  ∀ s, for_each body l s = Err (KeyError k).
Proof.
  intros Hnone Hsome. induction l as [|x l IH]; intros Hex s.
  - by apply Exists_nil in Hex.
  - simpl. destruct (x !! k) as [v|] eqn:Hx.
    + destruct (Hsome s x) as [s' ->]; [by rewrite Hx|]. simpl.
      apply IH. apply Exists_cons in Hex as [Hex|Hex]; [congruence | done].
    + by rewrite (Hnone s x Hx).
Qed.

Lemma channel_step_missing (s : pydict (list record)) (r : record) :
  r !! "sales-channel" = None → channel_step s r = Err (KeyError "sales-channel").
Proof. intros H. unfold channel_step, getitem. by rewrite H. Qed.

Lemma channel_step_present (s : pydict (list record)) (r : record) :
  is_Some (r !! "sales-channel") → ∃ s', channel_step s r = Ok s'.
Proof. intros [v H]. unfold channel_step, getitem. rewrite H. simpl. eauto. Qed.

Lemma order_step_missing (s : pydict order_entry) (r : record) :
  r !! "order-id" = None → order_step s r = Err (KeyError "order-id").
Proof. intros H. unfold order_step, getitem. by rewrite H. Qed.

Lemma order_step_present (s : pydict order_entry) (r : record) :
  is_Some (r !! "order-id") → ∃ s', order_step s r = Ok s'.
Proof. intros [v H]. unfold order_step, getitem. rewrite H. simpl. eauto. Qed.

(** X6. The channel grouping reads every record before anything is
    rendered: if one record of the data lacks the sales-channel field, the
    run stops with the KeyError of that name and has written nothing, not
    even for the channels of the records before it. *)
Theorem missing_channel_writes_nothing (uuid4 : nat → string)
    (toprettyxml : string → result string) (data : list record) (w : world) :
  Exists (λ r : record, r !! "sales-channel" = None) data →
  group_by_channel data = Err (KeyError "sales-channel")
  ∧ process_data uuid4 toprettyxml data w = (w, Err (KeyError "sales-channel")).
Proof.
  intros Hex.
  assert (Hg : group_by_channel data = Err (KeyError "sales-channel")).
  { unfold group_by_channel.
    apply for_each_missing_key;
      [apply channel_step_missing | apply channel_step_present | done]. }
  split; [exact Hg|]. unfold process_data. by rewrite Hg.
Qed.

Lemma missing_channel_writes_nothing_witness :
  process_data sample_uuid no_pretty
    [ sample_line "Amazon.com" "111" "i1";
      delete "sales-channel" (sample_line "Amazon.ca" "222" "i2") ] empty_world
  = (empty_world, Err (KeyError "sales-channel")).
Proof.
  apply (missing_channel_writes_nothing sample_uuid no_pretty
           [ sample_line "Amazon.com" "111" "i1";
             delete "sales-channel" (sample_line "Amazon.ca" "222" "i2") ]
           empty_world).
  apply Exists_cons_tl, Exists_cons_hd. reflexivity.
Defined.

(** X7. A record without the order-id field stops the run when its channel
    is reached: the order grouping of that channel raises the KeyError of
    that name, the channels processed before keep their files, and neither
    this channel nor a later one is written. *)
Theorem missing_order_id_stops_at_channel (uuid4 : nat → string)
    (toprettyxml : string → result string)
    (before after : pydict (list record)) (channel_name : value)
    (rs : list record) (w w1 : world) (counter counter1 : nat) :
  process_channels uuid4 toprettyxml before w counter = (w1, Ok counter1) →
  Exists (λ r : record, r !! "order-id" = None) rs →
  group_by_order rs = Err (KeyError "order-id")
  ∧ process_channels uuid4 toprettyxml
      (before ++ (channel_name, rs) :: after) w counter
    = (w1, Err (KeyError "order-id")).
Proof.
  intros Hbefore Hex.
  assert (Hg : group_by_order rs = Err (KeyError "order-id")).
  { unfold group_by_order.
    apply for_each_missing_key;
      [apply order_step_missing | apply order_step_present | done]. }
  split; [exact Hg|].
  rewrite process_channels_app, Hbefore. simpl. by rewrite Hg.
Qed.

Lemma missing_order_id_stops_at_channel_witness :
  ∃ w1,
    process_channels sample_uuid no_pretty
      [ (VStr "Amazon.ca", [sample_line "Amazon.ca" "222" "i2"]);
        (VStr "Amazon.com", [delete "order-id" (sample_line "Amazon.com" "111" "i1")]) ]
      empty_world 0
    = (w1, Err (KeyError "order-id"))
    ∧ is_Some (files w1 !! "out/Amazon.ca.xml")
    ∧ files w1 !! "out/Amazon.com.xml" = None.
Proof.
  eexists. split.
  - refine (proj2 (missing_order_id_stops_at_channel sample_uuid no_pretty
                     [ (VStr "Amazon.ca", [sample_line "Amazon.ca" "222" "i2"]) ] []
                     (VStr "Amazon.com")
                     [delete "order-id" (sample_line "Amazon.com" "111" "i1")]
                     empty_world _ 0 1 _ _)).
    + by vm_compute.
    + apply Exists_cons_hd. reflexivity.
  - split; [vm_compute; eexists; reflexivity | by vm_compute].
Defined.

(** ** A run that succeeds *)

Section RunSuccess.
Variable uuid4 : nat → string.
Variable toprettyxml : string → result string.

Lemma process_channels_step (channel_name : value) (rs : list record)
  (rest : pydict (list record)) (w w' : world) (counter counter' : nat) :
process_channels uuid4 toprettyxml ((channel_name, rs) :: rest) w counter
= (w', Ok counter') →
∃ xml_report pretty_xml,
  generate_amazon_xml uuid4 (uuid_calls w) (order_buckets rs) default_merchant_id
  = Ok xml_report
  ∧ toprettyxml xml_report = Ok pretty_xml
  ∧ Forall (λ r : record, is_Some (r !! "order-id")) rs
  ∧ process_channels uuid4 toprettyxml rest
      (mk_world (<[formatted_path channel_name := pretty_xml]>
                   (<[compact_path channel_name := xml_report]> (files w)))
                (uuid_calls w + length (first_seen (column "order-id" rs))))
      (counter + length (first_seen (column "order-id" rs)))
    = (w', Ok counter').
Proof.
simpl. destruct (group_by_order rs) as [batch|e] eqn:Hbatch; [|intros [=]].
assert (Hall : Forall (λ r : record, is_Some (r !! "order-id")) rs).
{ eapply for_each_Ok_fields; [|exact Hbatch].
  intros s r s' Hs. unfold order_step in Hs.
  apply bind_Ok in Hs as (v & Hv & _). apply getitem_Ok in Hv. eauto. }
apply group_by_order_Ok in Hbatch. subst batch.
destruct (generate_amazon_xml _ _ _ _) as [xml_report|e] eqn:Hxml; [|intros [=]].
unfold save_xml_to_out_directory.
destruct (toprettyxml xml_report) as [pretty_xml|e] eqn:Hpretty; [|intros [=]].
intros H. exists xml_report, pretty_xml.
do 3 (split; [done|]).
unfold order_buckets, buckets_as in H. rewrite length_map in H. exact H.
Qed.

Lemma process_channels_Ok (channels : pydict (list record)) :
∀ w w' counter counter',
  process_channels uuid4 toprettyxml channels w counter = (w', Ok counter') →
  counter' = counter + count_orders channels
  ∧ uuid_calls w' = uuid_calls w + count_orders channels
  ∧ (∀ p, is_Some (files w !! p) → is_Some (files w' !! p))
  ∧ (∀ c, c ∈ channels.*1 →
       is_Some (files w' !! compact_path c)
       ∧ is_Some (files w' !! formatted_path c))
  ∧ (∀ p, (∀ c, c ∈ channels.*1 → p ≠ compact_path c ∧ p ≠ formatted_path c) →
       files w' !! p = files w !! p).
Proof.
induction channels as [|[c rs] channels IH]; intros w w' counter counter' H.
- simpl in H. injection H as <- <-. unfold count_orders. simpl.
  split; [lia|]. split; [lia|]. split; [done|]. split; [|done].
  intros c' Hc'. by apply elem_of_nil in Hc'.
- apply process_channels_step in H as (xml_report & pretty_xml & _ & _ & _ & H).
  apply IH in H as (Hn & Hcalls & Hmono & Hfiles & Hframe). simpl in *.
  unfold count_orders in *. simpl.
  split; [lia|]. split; [lia|]. split; [|split].
  + intros p Hp. apply Hmono.
    destruct (decide (formatted_path c = p)) as [->|Hne1];
      [by rewrite lookup_insert_eq|].
    rewrite lookup_insert_ne by done.
    destruct (decide (compact_path c = p)) as [->|Hne2];
      [by rewrite lookup_insert_eq|].
    by rewrite lookup_insert_ne.
  + intros c' Hc'. apply elem_of_cons in Hc' as [->|Hc']; [|by apply Hfiles].
    split; apply Hmono.
    * destruct (decide (formatted_path c = compact_path c)) as [Heq|Hne].
      -- rewrite Heq. by rewrite lookup_insert_eq.
      -- rewrite lookup_insert_ne by done. by rewrite lookup_insert_eq.
    * by rewrite lookup_insert_eq.
  + intros p Hp. rewrite Hframe by (intros c' Hc'; apply Hp; by right).
    destruct (Hp c) as [Hp1 Hp2]; [by left|].
    by rewrite !lookup_insert_ne.
Qed.
End RunSuccess.

Lemma sum_map_le {A : Type} (f g : A → nat) (l : list A) :
  (∀ x, (f x ≤ g x)%nat) → (sum_list (map f l) ≤ list_sum (map g l))%nat.
Proof.
  intros Hfg. induction l as [|x l IH]; simpl; [done|].
  specialize (Hfg x). lia.
Qed.

Lemma length_first_seen_le (l : list value) :
  (length (first_seen l) ≤ length l)%nat.
Proof.
  induction l as [|x l IH]; simpl; [done|].
  pose proof (length_filter (λ y, y ≠ x) (first_seen l)). lia.
Qed.

Lemma length_column_le (k : string) (rs : list record) :
  (length (column k rs) ≤ length rs)%nat.
Proof.
  unfold column. induction rs as [|r rs IH]; csimpl; [done|].
  destruct (r !! k); csimpl; lia.
Qed.

(** X8. When the loop of [run] over the queried data ends without an
    exception, the total it reports is the number of orders (distinct order
    ids, channel by channel), not of records; it has drawn exactly one uuid
    per order; every channel of the data has its compact and its formatted
    file; and no file other than those of the channels was touched. *)
Theorem run_success_files_and_total (uuid4 : nat → string)
    (toprettyxml : string → result string) (data : list record)
    (w w' : world) (total : nat) :
  process_data uuid4 toprettyxml data w = (w', Ok total) →
  total = count_orders (buckets "sales-channel" data)
  ∧ (total ≤ length data)%nat
  ∧ uuid_calls w' = uuid_calls w + total
  ∧ (∀ c, c ∈ column "sales-channel" data →
       is_Some (files w' !! compact_path c)
       ∧ is_Some (files w' !! formatted_path c))
  ∧ (∀ p, (∀ c, c ∈ column "sales-channel" data →
             p ≠ compact_path c ∧ p ≠ formatted_path c) →
       files w' !! p = files w !! p).
Proof.
  unfold process_data.
  destruct (group_by_channel data) as [channels|e] eqn:Hg; [|intros [=]].
  pose proof Hg as Hall. apply group_by_channel_Ok in Hg. subst channels.
  assert (Hpresent : Forall (λ r : record, is_Some (r !! "sales-channel")) data).
  { eapply for_each_Ok_fields; [|exact Hall].
    intros s r s' Hs. unfold channel_step in Hs.
    apply bind_Ok in Hs as (v & Hv & _). apply getitem_Ok in Hv. eauto. }
  intros H. apply process_channels_Ok in H as (Hn & Hcalls & _ & Hfiles & Hframe).
  assert (Hkeys : (buckets "sales-channel" data).*1
                  = first_seen (column "sales-channel" data)).
  { unfold buckets, buckets_as.
    apply (dict_keys_tabulate (λ c, having "sales-channel" c data)). }
  rewrite Hkeys in Hfiles, Hframe. simpl in Hn.
  split; [exact Hn|]. split; [|split; [lia|split]].
  - subst total. unfold count_orders, buckets, buckets_as. rewrite map_map. simpl.
    rewrite <- (Permutation_length
                  (concat_having_perm "sales-channel"
                     (first_seen (column "sales-channel" data)) data
                     (NoDup_first_seen _) (first_seen_covers _ _ Hpresent))).
    rewrite length_concat, map_map.
    apply sum_map_le. intros c.
    etransitivity; [apply length_first_seen_le | apply length_column_le].
  - intros c Hc. apply Hfiles. by apply elem_of_first_seen.
  - intros p Hp. apply Hframe. intros c Hc. apply Hp. by apply elem_of_first_seen.
Qed.

Lemma run_success_files_and_total_witness :
  ∃ w',
    process_data sample_uuid no_pretty
      [ sample_line "Amazon.com" "111" "i1";
        sample_line "Amazon.ca" "222" "i2";
        sample_line "Amazon.com" "111" "i3" ] empty_world
    = (w', Ok 2)
    ∧ uuid_calls w' = 2
    ∧ is_Some (files w' !! compact_path (VStr "Amazon.ca")).
Proof.
  eexists. split; [by vm_compute|].
  match goal with
  | |- uuid_calls ?w' = _ ∧ _ =>
      destruct (run_success_files_and_total sample_uuid no_pretty
                  [ sample_line "Amazon.com" "111" "i1";
                    sample_line "Amazon.ca" "222" "i2";
                    sample_line "Amazon.com" "111" "i3" ] empty_world w' 2)
        as (_ & _ & Hcalls & Hfiles & _)
  end.
  - by vm_compute.
  - split; [exact Hcalls|]. apply Hfiles. by vm_compute; repeat constructor.
Defined.

(** ** What the files hold *)

Lemma length_append (s1 s2 : string) :
  String.length (s1 +:+ s2) = (String.length s1 + String.length s2)%nat.
Proof. induction s1 as [|c s1 IH]; simpl; [done | by rewrite IH]. Qed.

(** Whether [path_join] keeps the directory depends on the first character
    of the name only. *)
Lemma path_join_same_head (directory : string) (c : ascii) (t1 t2 : string) :
  (path_join directory (String c t1) = String c t1
   ∧ path_join directory (String c t2) = String c t2)
  ∨ (path_join directory (String c t1) = directory +:+ "/" +:+ String c t1
     ∧ path_join directory (String c t2) = directory +:+ "/" +:+ String c t2).
Proof.
  destruct c as [[] [] [] [] [] [] [] []]; simpl; auto.
Qed.

Lemma compact_path_ne_formatted (channel_name : value) :
  compact_path channel_name ≠ formatted_path channel_name.
Proof.
  unfold compact_path, formatted_path.
  destruct (py_str channel_name) as [|c s]; [by vm_compute|].
  change (String c s +:+ ".xml") with (String c (s +:+ ".xml")).
  change (String c s +:+ ".formatted.xml") with (String c (s +:+ ".formatted.xml")).
  destruct (path_join_same_head "out" c (s +:+ ".xml") (s +:+ ".formatted.xml"))
    as [[-> ->]|[-> ->]]; intros H; apply (f_equal String.length) in H;
    simpl in H; rewrite !length_append in H; simpl in H; lia.
Qed.

(** X9. After a successful run of the loop, the compact file of a channel
    holds exactly what [generate_amazon_xml] returned for the orders of that
    channel, drawing its uuids after those of the channels before it, and the
    formatted file holds the pretty-printed form of these bytes, provided no
    later channel writes to the same paths. *)
Theorem channel_files_hold_report (uuid4 : nat → string)
    (toprettyxml : string → result string)
    (before after : pydict (list record)) (channel_name : value)
    (rs : list record) (w w' : world) (counter total : nat) :
  process_channels uuid4 toprettyxml
    (before ++ (channel_name, rs) :: after) w counter = (w', Ok total) →
  (∀ c, c ∈ after.*1 →
     compact_path channel_name ≠ compact_path c
     ∧ compact_path channel_name ≠ formatted_path c
     ∧ formatted_path channel_name ≠ compact_path c
     ∧ formatted_path channel_name ≠ formatted_path c) →
  ∃ batch xml_report pretty_xml,
    group_by_order rs = Ok batch
    ∧ generate_amazon_xml uuid4 (uuid_calls w + count_orders before) batch
        default_merchant_id = Ok xml_report
    ∧ toprettyxml xml_report = Ok pretty_xml
    ∧ files w' !! compact_path channel_name = Some xml_report
    ∧ files w' !! formatted_path channel_name = Some pretty_xml.
Proof.
  intros Hrun Hafter. rewrite process_channels_app in Hrun.
  destruct (process_channels uuid4 toprettyxml before w counter)
    as [w1 [counter1|e]] eqn:Hbefore; [|discriminate].
  apply process_channels_Ok in Hbefore as (_ & Hcalls & _).
  apply process_channels_step in Hrun
    as (xml_report & pretty_xml & Hxml & Hpretty & Hall & Hrest).
  apply process_channels_Ok in Hrest as (_ & _ & _ & _ & Hframe). simpl in Hframe.
  exists (order_buckets rs), xml_report, pretty_xml.
  split; [by apply group_by_order_buckets|].
  split; [by rewrite <- Hcalls|]. split; [done|]. split.
  - rewrite Hframe by (intros c Hc; destruct (Hafter c Hc); tauto).
    rewrite lookup_insert_ne by (apply not_eq_sym, compact_path_ne_formatted).
    by rewrite lookup_insert_eq.
  - rewrite Hframe by (intros c Hc; destruct (Hafter c Hc); tauto).
    by rewrite lookup_insert_eq.
Qed.

Lemma channel_files_hold_report_witness :
  ∃ w' xml_report,
    process_channels sample_uuid no_pretty
      [ (VStr "Amazon.com", [sample_line "Amazon.com" "111" "i1"]);
        (VStr "Amazon.ca", [sample_line "Amazon.ca" "222" "i2"]) ] empty_world 0
    = (w', Ok 2)
    ∧ generate_amazon_xml sample_uuid 1
        (order_buckets [sample_line "Amazon.ca" "222" "i2"]) default_merchant_id
      = Ok xml_report
    ∧ files w' !! compact_path (VStr "Amazon.ca") = Some xml_report.
Proof.
  eexists _, _. split; [by vm_compute|]. split; [by vm_compute|].
  match goal with
  | |- files ?w' !! _ = _ =>
      destruct (channel_files_hold_report sample_uuid no_pretty
                  [ (VStr "Amazon.com", [sample_line "Amazon.com" "111" "i1"]) ] []
                  (VStr "Amazon.ca") [sample_line "Amazon.ca" "222" "i2"]
                  empty_world w' 0 2)
        as (batch & x & p & Hbatch & Hx & _ & Hfile & _)
  end.
  - by vm_compute.
  - intros c Hc. by apply elem_of_nil in Hc.
  - rewrite Hfile. vm_compute in Hbatch. injection Hbatch as <-.
    vm_compute in Hx. injection Hx as <-. reflexivity.
Defined.

(** X10. The compact file is written before the XML is pretty-printed: if
    pretty-printing the report of a channel fails, the run stops with that
    exception, the compact file of the channel is already written with the
    report, its formatted file is not written, and no later channel is
    processed. *)
Theorem pretty_print_failure_leaves_compact_file (uuid4 : nat → string)
    (toprettyxml : string → result string)
    (before after : pydict (list record)) (channel_name : value)
    (rs : list record) (w w1 : world) (counter counter1 : nat)
    (batch : pydict order_entry) (xml_report : string) (e : exn) :
  process_channels uuid4 toprettyxml before w counter = (w1, Ok counter1) →
  group_by_order rs = Ok batch →
  generate_amazon_xml uuid4 (uuid_calls w1) batch default_merchant_id
  = Ok xml_report →
  toprettyxml xml_report = Err e →
  process_channels uuid4 toprettyxml
    (before ++ (channel_name, rs) :: after) w counter
  = (mk_world (<[compact_path channel_name := xml_report]> (files w1))
              (uuid_calls w1 + length batch),
     Err e).
Proof.
  intros Hbefore Hbatch Hxml Hpretty.
  rewrite process_channels_app, Hbefore. simpl.
  rewrite Hbatch, Hxml. unfold save_xml_to_out_directory. by rewrite Hpretty.
Qed.

Lemma pretty_print_failure_leaves_compact_file_witness :
  ∃ w',
    process_channels sample_uuid (λ _, Err ExpatError)
      [ (VStr "Amazon.com", [sample_line "Amazon.com" "111" "i1"]);
        (VStr "Amazon.ca", [sample_line "Amazon.ca" "222" "i2"]) ] empty_world 0
    = (w', Err ExpatError)
    ∧ is_Some (files w' !! compact_path (VStr "Amazon.com"))
    ∧ files w' !! formatted_path (VStr "Amazon.com") = None
    ∧ files w' !! compact_path (VStr "Amazon.ca") = None.
Proof.
  eexists. split.
  - apply (pretty_print_failure_leaves_compact_file sample_uuid (λ _, Err ExpatError)
             [] [ (VStr "Amazon.ca", [sample_line "Amazon.ca" "222" "i2"]) ]
             (VStr "Amazon.com") [sample_line "Amazon.com" "111" "i1"]
             empty_world empty_world 0 0
             (order_buckets [sample_line "Amazon.com" "111" "i1"])).
    + reflexivity.
    + by vm_compute.
    + by vm_compute.
    + reflexivity.
  - split; [vm_compute; eexists; reflexivity | split; by vm_compute].
Defined.

(** ** One Item per record *)

Lemma build_item_code (r : record) (it : xml) :
  build_item r = Ok it →
  findtext ["AmazonOrderItemCode"] it = r !! "order-item-id"
  ∧ findtext ["SKU"] it = r !! "sku".
Proof.
  intros H. unfold build_item in H. invert_binds H. subst it.
  repeat match goal with
         | Hv : getitem _ _ = Ok _ |- _ => apply getitem_Ok in Hv
         end.
  split.
  - match goal with Hv : r !! "order-item-id" = Some _ |- _ => rewrite Hv end.
    reflexivity.
  - match goal with Hv : r !! "sku" = Some _ |- _ => rewrite Hv end.
    reflexivity.
Qed.

Lemma build_items_codes (lines : list record) (items : list xml) :
  map_each build_item lines = Ok items →
  map (findtext ["AmazonOrderItemCode"]) items
  = map (λ r : record, r !! "order-item-id") lines
  ∧ map (findtext ["SKU"]) items = map (λ r : record, r !! "sku") lines.
Proof.
  intros H. apply map_each_Forall2 in H.
  induction H as [|r it lines items Hr _ [IH1 IH2]]; [done|].
  apply build_item_code in Hr as [Hc Hs]. simpl. by rewrite Hc, Hs, IH1, IH2.
Qed.

Lemma build_message_items (message_id : nat) (order_id : value)
    (entry : order_entry) (session : string) (m : xml) :
  build_message message_id order_id entry session = Ok m →
  ∃ items, map_each build_item (orders entry) = Ok items ∧ report_items m = items.
Proof.
  intros H. unfold build_message in H. invert_binds H. subst m.
  match goal with
  | Hi : map_each build_item _ = Ok ?its |- _ => exists its; split; [exact Hi|]
  end.
  unfold report_items, findall. simpl.
  rewrite !filter_cons_False by (simpl; discriminate).
  by eapply build_items_tag.
Qed.

Lemma build_messages_items (uuid4 : nat → string) (batch : pydict order_entry) :
  ∀ message_id calls msgs,
    build_messages uuid4 message_id calls batch = Ok msgs →
    map (findtext ["AmazonOrderItemCode"]) (concat (map report_items msgs))
    = map (λ r : record, r !! "order-item-id") (batch_lines batch)
    ∧ map (findtext ["SKU"]) (concat (map report_items msgs))
      = map (λ r : record, r !! "sku") (batch_lines batch).
Proof.
  induction batch as [|[order_id entry] batch IH]; intros message_id calls msgs H;
    simpl in H.
  - by injection H as <-.
  - apply bind_Ok in H as (m & Hm & H). apply bind_Ok in H as (ms & Hms & H).
    injection H as <-.
    apply build_message_items in Hm as (items & Hitems & Hreport).
    apply build_items_codes in Hitems as [Hc Hs].
    destruct (IH _ _ _ Hms) as [IH1 IH2].
    unfold batch_lines in *. simpl. rewrite Hreport, !map_app.
    by rewrite Hc, Hs, IH1, IH2.
Qed.

(** X11. Nothing is lost between the records of a channel and its
    envelope: the Item elements of the envelope, read message by message in
    document order, are one per record; their AmazonOrderItemCode and SKU
    texts are the order-item-id and sku values of the records taken order by
    order, and these records are a rearrangement of the channel's records. *)
Theorem one_item_per_record (uuid4 : nat → string) (calls : nat)
    (merchant_id : string) (rs : list record) (batch : pydict order_entry)
    (env : xml) :
  group_by_order rs = Ok batch →
  build_envelope uuid4 calls batch merchant_id = Ok env →
  length (envelope_items env) = length rs
  ∧ map (findtext ["AmazonOrderItemCode"]) (envelope_items env)
    = map (λ r : record, r !! "order-item-id") (batch_lines batch)
  ∧ map (findtext ["SKU"]) (envelope_items env)
    = map (λ r : record, r !! "sku") (batch_lines batch)
  ∧ batch_lines batch ≡ₚ rs.
Proof.
  intros Hbatch Henv.
  assert (Hall : Forall (λ r : record, is_Some (r !! "order-id")) rs).
  { eapply for_each_Ok_fields; [|exact Hbatch].
    intros s r s' Hs. unfold order_step in Hs.
    apply bind_Ok in Hs as (v & Hv & _). apply getitem_Ok in Hv. eauto. }
  apply group_by_order_Ok in Hbatch. subst batch.
  pose proof (batch_lines_order_buckets rs Hall) as Hperm.
  unfold build_envelope in Henv.
  apply bind_Ok in Henv as (msgs & Hmsgs & Henv). injection Henv as <-.
  pose proof (build_messages_items _ _ _ _ _ Hmsgs) as [Hc Hs].
  apply build_messages_header in Hmsgs as (Htag & _ & _).
  unfold envelope_items, findall. simpl.
  rewrite !filter_cons_False by (simpl; discriminate).
  rewrite Htag, Hc, Hs.
  split; [|done].
  rewrite <- (length_map (findtext ["AmazonOrderItemCode"])), Hc, length_map.
  by apply Permutation_length.
Qed.

Lemma one_item_per_record_witness :
  ∃ env,
    build_envelope sample_uuid 0
      (order_buckets [ sample_line "Amazon.com" "222" "i1";
                       sample_line "Amazon.com" "111" "i2";
                       sample_line "Amazon.com" "222" "i3" ])
      default_merchant_id = Ok env
    ∧ map (findtext ["AmazonOrderItemCode"]) (envelope_items env)
      = [Some (VStr "i1"); Some (VStr "i3"); Some (VStr "i2")].
Proof.
  eexists. split; [by vm_compute|].
  match goal with
  | |- map _ (envelope_items ?env) = _ =>
      destruct (one_item_per_record sample_uuid 0 default_merchant_id
                  [ sample_line "Amazon.com" "222" "i1";
                    sample_line "Amazon.com" "111" "i2";
                    sample_line "Amazon.com" "222" "i3" ]
                  (order_buckets [ sample_line "Amazon.com" "222" "i1";
                                   sample_line "Amazon.com" "111" "i2";
                                   sample_line "Amazon.com" "222" "i3" ]) env)
        as (_ & Hcodes & _)
  end.
  - by vm_compute.
  - by vm_compute.
  - rewrite Hcodes. by vm_compute.
Defined.

(** ** What the parser returns, and when it gives up *)

Section ParserOutcome.
Variable csv_reader : string → list (list string).
Variable fromisoformat : string → result datetime.

Lemma parse_row_inv (row obj : record * option (list string)) :
  parse_row fromisoformat row = Ok obj →
  ∃ s d, row.1 !! "purchase-date" = Some (VStr s)
         ∧ fromisoformat s = Ok d
         ∧ obj = (<["order_date" := VDate d]> row.1, row.2).
Proof.
  unfold parse_row. intros H.
  apply bind_Ok in H as (v & Hv & H). apply bind_Ok in H as (d & Hd & H).
  injection H as <-. apply getitem_Ok in Hv.
  destruct v as [s| | | |]; try discriminate. simpl in Hd. eauto.
Qed.

Lemma map_each_app_Err {A B : Type} (f : A → result B) (before after : list A)
    (x : A) (e : exn) :
  Forall (λ a, ∃ b, f a = Ok b) before →
  f x = Err e →
  map_each f (before ++ x :: after) = Err e.
Proof.
  induction 1 as [|a before [b Hb] _ IH]; intros Hx; simpl.
  - by rewrite Hx.
  - rewrite Hb. simpl. by rewrite IH.
Qed.
End ParserOutcome.

(** X12. Whatever the table, when the parser returns records there is one
    per non-blank data row, in row order, blank rows being skipped; each
    record is its row with order_date added, the purchase-date of the row is
    a string and order_date is what the date parser made of it. *)
Theorem parsed_records_carry_their_date (csv_reader : string → list (list string))
    (fromisoformat : string → result datetime) (file : string)
    (fieldnames : list string) (rows : list (list string))
    (objects : list (record * option (list string))) :
  csv_reader file = fieldnames :: rows →
  parse_txt_to_objects csv_reader fromisoformat file = Ok objects →
  length objects = length (filter (λ row, row ≠ []) rows)
  ∧ Forall2 (λ row (obj : record * option (list string)),
               ∃ s d, (dict_row fieldnames row).1 !! "purchase-date" = Some (VStr s)
                      ∧ fromisoformat s = Ok d
                      ∧ obj.1 = <["order_date" := VDate d]> (dict_row fieldnames row).1
                      ∧ obj.2 = (dict_row fieldnames row).2)
            (filter (λ row, row ≠ []) rows) objects.
Proof.
  intros Hfile H. unfold parse_txt_to_objects, DictReader in H. rewrite Hfile in H.
  apply map_each_Forall2 in H. rewrite Forall2_fmap_l in H.
  split; [symmetry; by eapply Forall2_length|].
  eapply Forall2_impl; [exact H|]. simpl. intros row obj Hrow.
  apply parse_row_inv in Hrow as (s & d & Hs & Hd & ->).
  exists s, d. done.
Qed.

Lemma parsed_records_carry_their_date_witness :
  ∃ objects,
    parse_txt_to_objects plain_reader sample_fromisoformat sample_file = Ok objects
    ∧ length objects = 2.
Proof.
  eexists. split; [by vm_compute|].
  match goal with
  | |- length ?objects = _ =>
      destruct (parsed_records_carry_their_date plain_reader sample_fromisoformat
                  sample_file ["order-id"; "purchase-date"]
                  [["111"; "2024-12-24T10:00:00"]; ["222"; "2024-12-25T11:30:00"]]
                  objects) as [Hlen _]
  end.
  - by vm_compute.
  - by vm_compute.
  - rewrite Hlen. by vm_compute.
Defined.

(** X13. The parser gives up on the first row it cannot date and returns
    no records at all, not those of the rows before: a table without a
    purchase-date column raises KeyError, a row whose purchase-date cell is
    missing (a short row, filled with None) raises TypeError, and a cell the
    date parser rejects raises that parser's exception. *)
Theorem parser_aborts_on_first_bad_row (csv_reader : string → list (list string))
    (fromisoformat : string → result datetime) (file : string)
    (before after : list (record * option (list string)))
    (row : record * option (list string)) :
  DictReader (csv_reader file) = before ++ row :: after →
  Forall (λ r, ∃ obj, parse_row fromisoformat r = Ok obj) before →
  (row.1 !! "purchase-date" = None →
   parse_txt_to_objects csv_reader fromisoformat file
   = Err (KeyError "purchase-date"))
  ∧ (∀ v, row.1 !! "purchase-date" = Some v → (∀ s, v ≠ VStr s) →
       parse_txt_to_objects csv_reader fromisoformat file = Err TypeError)
  ∧ (∀ s e, row.1 !! "purchase-date" = Some (VStr s) → fromisoformat s = Err e →
       parse_txt_to_objects csv_reader fromisoformat file = Err e).
Proof.
  intros Hrows Hbefore. unfold parse_txt_to_objects. rewrite Hrows.
  split; [|split].
  - intros Hnone. apply map_each_app_Err; [done|].
    unfold parse_row, getitem. by rewrite Hnone.
  - intros v Hv Hnot. apply map_each_app_Err; [done|].
    unfold parse_row, getitem. rewrite Hv. simpl.
    destruct v as [s| | | |]; try done. by destruct (Hnot s).
  - intros s e Hs He. apply map_each_app_Err; [done|].
    unfold parse_row, getitem. rewrite Hs. simpl. by rewrite He.
Qed.

Lemma parser_aborts_on_first_bad_row_witness :
  parse_txt_to_objects plain_reader sample_fromisoformat
    ("order-id" +:+ String tab "purchase-date" +:+ String newline
     ("111" +:+ String tab "2024-12-24T10:00:00" +:+ String newline
     ("222" +:+ String newline EmptyString)))
  = Err TypeError.
Proof.
  refine (proj1 (proj2 (parser_aborts_on_first_bad_row plain_reader
                          sample_fromisoformat _
                          [ (dict_zip ["order-id"; "purchase-date"]
                                      ["111"; "2024-12-24T10:00:00"], None) ]
                          []
                          (<["purchase-date" := VNone]>
                             (dict_zip ["order-id"; "purchase-date"] ["222"]), None)
                          _ _)) VNone _ _).
  - by vm_compute.
  - repeat constructor. eexists. by vm_compute.
  - by vm_compute.
  - intros s. discriminate.
Defined.
